(** * CVE lookup data preparation

    A shallow embedding of [plugins/analysis/cve_lookup/internal/data_prep.py]:
    the walk over the match-condition tree of a feed item ([iterate_nodes]),
    the extraction of a feed ([extract_cve]) and of the platform dictionary
    ([extract_cpe]), and the two table builders ([setup_cve_table],
    [setup_cpe_table]).

    Python [str] values are modelled as [string].  Every character the code
    inspects (colon, backslash, dot, dash, star, the decimal digits and the
    letters of the id pattern) is ASCII, and an ASCII byte never occurs inside
    the UTF-8 encoding of another code point, so scanning bytes and scanning
    code points cut and rewrite a text at the same places.

    Python exceptions are modelled in the error monad [exn + A] of ExtLib:
    [inl e] is a call that terminated by raising [e], [inr v] is a call that
    returned [v]. *)

From Stdlib Require Import String Ascii List Bool Arith ZArith DecimalString Lia.
From ExtLib Require Import Structures.Monad Structures.MonadExc.
From ExtLib Require Import Data.Monads.EitherMonad.
Import ListNotations.
Import MonadNotation.
Local Open Scope monad_scope.
Local Open Scope string_scope.
Local Open Scope list_scope.

(** ** Exceptions *)

(** The exceptions the modelled code can terminate with. *)
Inductive exn : Type :=
| IndexError
| KeyError
| AttributeError
| JSONDecodeError
| FileNotFoundError
| IOError
| SystemExit.

Definition outcome : Type -> Type := sum exn.

#[global] Instance Monad_outcome : Monad outcome := Monad_either exn.
#[global] Instance Exception_outcome : MonadExc exn outcome := Exception_either exn.

Definition Returned {A : Type} (v : A) : outcome A := inr v.
Definition Raised {A : Type} (e : exn) : outcome A := inl e.

(** Subscripting a list, [l[i]]: raises [IndexError] out of range. *)
Definition subscript {A : Type} (l : list A) (i : nat) : outcome A :=
  match nth_error l i with
  | Some v => ret v
  | None => raise IndexError
  end.

(** Subscripting a dict whose key may be absent, [d[k]]. *)
Definition item {A : Type} (field : option A) : outcome A :=
  match field with
  | Some v => ret v
  | None => raise KeyError
  end.

(** ** Strings *)

Module Str.

Definition colon : ascii := ":"%char.
Definition backslash : ascii := "\"%char.
Definition dot : ascii := "."%char.
Definition dash : ascii := "-"%char.

(** [str.startswith]. *)
Definition startswith (s p : string) : bool := String.prefix p s.

(** [sub in s] on strings. *)
Fixpoint contains (sub s : string) : bool :=
  String.prefix sub s ||
  match s with
  | EmptyString => false
  | String _ s' => contains sub s'
  end.

(** [sep.join(parts)]. *)
Fixpoint join (sep : string) (parts : list string) : string :=
  match parts with
  | [] => ""
  | [p] => p
  | p :: ps => p ++ sep ++ join sep ps
  end.

(** Puts a character in front of the first piece of a split. *)
Definition push (c : ascii) (pieces : list string) : list string :=
  match pieces with
  | [] => [String c ""]
  | t :: ts => String c t :: ts
  end.

(** Splitting a text at every character that [delim] accepts, given the
    character before it ([None] at the start of the text).  Every
    delimiter is one character long and delimiters never overlap; empty
    pieces are kept, as [str.split] and [re.split] keep them. *)
Fixpoint split_where (delim : option ascii -> ascii -> bool)
         (prev : option ascii) (s : string) : list string :=
  match s with
  | EmptyString => [""]
  | String c s' =>
      if delim prev c then "" :: split_where delim (Some c) s'
      else push c (split_where delim (Some c) s')
  end.

(** [s.split(sep)] for a one-character separator. *)
Definition split (sep : ascii) (s : string) : list string :=
  split_where (fun _ c => Ascii.eqb c sep) None s.

Definition is_backslash (prev : option ascii) : bool :=
  match prev with
  | Some p => Ascii.eqb p backslash
  | None => false
  end.

(** The delimiter of the pattern [(?<!\\)[:]]: a colon whose preceding
    character is not a backslash (the look-behind also succeeds at the
    start of the text, where nothing precedes). *)
Definition unescaped_colon (prev : option ascii) (c : ascii) : bool :=
  Ascii.eqb c colon && negb (is_backslash prev).

(** A dot whose preceding character is not a backslash. *)
Definition unescaped_dot (prev : option ascii) (c : ascii) : bool :=
  Ascii.eqb c dot && negb (is_backslash prev).

(** [re.split(r'(?<!\\)[:]', s)]. *)
Definition re_split_colon (s : string) : list string :=
  split_where unescaped_colon None s.

Definition is_digit (c : ascii) : bool :=
  ((48 <=? nat_of_ascii c) && (nat_of_ascii c <=? 57))%nat.

(** [re.match(r'CVE-[0-9]{4}-[0-9]', entry)] as a truth value: the
    pattern is anchored at the start of the text only. *)
Definition is_cve_id (entry : string) : bool :=
  match entry with
  | String c0 (String c1 (String c2 (String c3 (String d0 (String d1
      (String d2 (String d3 (String c8 (String d4 _))))))))) =>
      Ascii.eqb c0 "C"%char && Ascii.eqb c1 "V"%char && Ascii.eqb c2 "E"%char
      && Ascii.eqb c3 dash
      && is_digit d0 && is_digit d1 && is_digit d2 && is_digit d3
      && Ascii.eqb c8 dash && is_digit d4
  | _ => false
  end.

End Str.

(** ** The match-condition tree *)

(** A leaf match of the feed: [{'vulnerable': ..., 'cpe23Uri': ...}]. *)
Record cpe_match_entry : Type := CpeMatch {
  vulnerable : bool;
  cpe23Uri : string
}.

(** A node of the feed is a dict.  The walker looks at the keys
    ['cpe_match'] and ['children'] only; each may be present or absent, and
    nothing in a dict prevents both from being present.  The ['operator']
    tag is kept as the feed has it. *)
#[warning="-register-all"]
Inductive node : Type :=
| Node (operator : string)
       (cpe_match : option (list cpe_match_entry))
       (children : option (list node)).

Definition operator (n : node) : string :=
  match n with Node op _ _ => op end.
Definition cpe_match (n : node) : option (list cpe_match_entry) :=
  match n with Node _ cm _ => cm end.
Definition children (n : node) : option (list node) :=
  match n with Node _ _ ch => ch end.

(** The induction principle that reaches the children of a node. *)
Section node_induction.
Variable P : node -> Prop.
Variable Q : list node -> Prop.
Hypothesis leaf_case : forall op cm, P (Node op cm None).
Hypothesis branch_case : forall op cm cs, Q cs -> P (Node op cm (Some cs)).
Hypothesis nil_case : Q [].
Hypothesis cons_case : forall n ns, P n -> Q ns -> Q (n :: ns).

Fixpoint node_nested_ind (n : node) : P n :=
  match n with
  | Node op cm None => leaf_case op cm
  | Node op cm (Some cs) =>
      branch_case op cm cs
        ((fix nodes_ind (l : list node) : Q l :=
            match l with
            | [] => nil_case
            | m :: ms => cons_case m ms (node_nested_ind m) (nodes_ind ms)
            end) cs)
  end.

Definition nodes_nested_ind (ns : list node) : Q ns :=
  list_ind Q nil_case
    (fun m ms IH => cons_case m ms (node_nested_ind m) IH) ns.
End node_induction.

(** The inner loop of [iterate_nodes] (lines 110-112): every leaf match
    whose flag [is True] has its identifier appended to the accumulator. *)
Fixpoint append_vulnerable (matches : list cpe_match_entry)
         (cpe_entries : list string) : list string :=
  match matches with
  | [] => cpe_entries
  | cpe :: rest =>
      if vulnerable cpe
      then append_vulnerable rest (cpe_entries ++ [cpe23Uri cpe])
      else append_vulnerable rest cpe_entries
  end.

(** The body of the loop of [iterate_nodes] (lines 109-114) for one node.
    [cpe_entries] is one Python list mutated in place, so the list after
    the recursive call is the list the call returns, whose value the code
    drops; the model threads it. *)
Fixpoint iterate_node (dicts : node) (cpe_entries : list string) : list string :=
  match dicts with
  | Node _ (Some matches) _ => append_vulnerable matches cpe_entries
  | Node _ None (Some cs) =>
      fold_left (fun entries d => iterate_node d entries) cs cpe_entries
  | Node _ None None => cpe_entries
  end.

(** [iterate_nodes(nodes, cpe_entries)] (lines 100-116). *)
Definition iterate_nodes (nodes : list node) (cpe_entries : list string)
  : list string :=
  fold_left (fun entries d => iterate_node d entries) nodes cpe_entries.

(** *** What the specification calls the vulnerable leaves of a tree *)

(** Every leaf match below a node, in document order: the matches the node
    carries, then those of the nodes below it. *)
Fixpoint spec_leaves (n : node) : list cpe_match_entry :=
  match n with
  | Node _ cm ch =>
      match cm with Some ms => ms | None => [] end
      ++ match ch with
         | Some cs => flat_map spec_leaves cs
         | None => []
         end
  end.

(** The identifiers of the leaves flagged vulnerable, at any depth. *)
Definition spec_vulnerable_ids (nodes : list node) : list string :=
  map cpe23Uri (filter vulnerable (flat_map spec_leaves nodes)).

(** A node of the shape the data model gives a match tree: it carries leaf
    matches, or child nodes, or neither, and never both; and so do the
    nodes below it. *)
Fixpoint match_tree_shape (n : node) : bool :=
  match n with
  | Node _ (Some _) (Some _) => false
  | Node _ _ (Some cs) => forallb match_tree_shape cs
  | Node _ _ None => true
  end.

(** Replacing every operator tag of a tree. *)
Fixpoint retag (f : string -> string) (n : node) : node :=
  match n with
  | Node op cm ch =>
      Node (f op) cm
           match ch with
           | Some cs => Some (map (retag f) cs)
           | None => None
           end
  end.

(** ** What the code reads from its surroundings *)

(** The state of a path when [extract_cve] opens and reads it. *)
Inductive file_state : Type :=
| Absent                  (* [open(file)] raises [IOError] *)
| Unreadable              (* [open] succeeds, reading raises [IOError] *)
| Content (text : string).

(** An element of an [ElementTree]: tag, attributes and child elements.
    Iterating over an element yields its direct children in document
    order. *)
#[warning="-register-all"]
Inductive element : Type :=
| Element (tag : string) (attrib : list (string * string))
          (elems : list element).

Definition tag (e : element) : string :=
  match e with Element t _ _ => t end.
Definition attrib (e : element) : list (string * string) :=
  match e with Element _ a _ => a end.
Definition elems (e : element) : list element :=
  match e with Element _ _ es => es end.

(** What [Et.parse(file)] finds at a path. *)
Inductive markup : Type :=
| NoDocument              (* raises [FileNotFoundError] *)
| Malformed               (* raises [Et.ParseError] *)
| Tree (root : element).

(** An item of the feed, as the loop reads it: each field is the outcome
    of the subscript chain that fetches it, which raises [KeyError] when a
    key on the way is absent and [IndexError] when the description list is
    empty. *)
Record vuln_item : Type := VulnItem {
  item_id : outcome string;          (* vuln['cve']['CVE_data_meta']['ID'] *)
  item_summary : outcome string;     (* ...['description_data'][0]['value'] *)
  item_nodes : outcome (list node)   (* vuln['configurations']['nodes'] *)
}.

(** The document [json.load] returns. *)
Record feed : Type := Feed {
  CVE_Items : option (list vuln_item)
}.

(** The collaborators of the module: the file system, the two parsers, and
    the order in which a [set] of strings is listed.  That order depends on
    the hash seed of the process, so it is left open. *)
Record runtime : Type := Runtime {
  open_file : string -> file_state;
  json_load : string -> option feed;   (* [None]: [JSONDecodeError] *)
  et_parse : string -> markup;
  list_of_set : list string -> list string   (* [list(set(l))] *)
}.

(** What every listing of a set guarantees. *)
Definition set_listing (f : list string -> list string) : Prop :=
  forall l, NoDup (f l) /\ forall x, In x (f l) <-> In x l.

(** ** [extract_cve] *)

Definition is_empty {A : Type} (l : list A) : bool :=
  match l with [] => true | _ :: _ => false end.

Definition reject_marker : string := "** REJECT **".

(** The body of the loop over the items (lines 135-150), on the pair of
    output lists. *)
Definition extract_item (rt : runtime) (vuln : vuln_item)
           (lists : list string * list string)
  : outcome (list string * list string) :=
  let '(cve_list, summary_list) := lists in
  cve_id <- item_id vuln ;;
  summary <- item_summary vuln ;;
  nodes <- item_nodes vuln ;;
  if is_empty nodes && negb (Str.startswith summary reject_marker)
  then ret (cve_list, summary_list ++ [cve_id; summary])
  else if negb (is_empty nodes)
  then ret (cve_list ++ cve_id :: list_of_set rt (iterate_nodes nodes []),
            summary_list)
  else ret (cve_list, summary_list).

Fixpoint extract_items (rt : runtime) (items : list vuln_item)
         (lists : list string * list string)
  : outcome (list string * list string) :=
  match items with
  | [] => ret lists
  | vuln :: rest =>
      lists' <- extract_item rt vuln lists ;;
      extract_items rt rest lists'
  end.

(** The [try] block (lines 131-150). *)
Definition extract_cve_body (rt : runtime) (file : string)
  : outcome (list string * list string) :=
  match open_file rt file with
  | Absent => raise IOError
  | Unreadable => raise IOError
  | Content text =>
      match json_load rt text with
      | None => raise JSONDecodeError
      | Some root =>
          items <- item (CVE_Items root) ;;
          extract_items rt items ([], [])
      end
  end.

(** [extract_cve(file)] (lines 119-156).  The handler turns an [IOError]
    into [exit(err)], which raises [SystemExit]; every other exception
    passes the handler.  The [finally] clause then calls [feeds.close()]:
    when [open] itself failed, [feeds] is still [None], and the call raises
    [AttributeError] in place of the exception under way. *)
Definition extract_cve (rt : runtime) (file : string)
  : outcome (list string * list string) :=
  let handled :=
    catch (extract_cve_body rt file)
          (fun err => match err with
                      | IOError => raise SystemExit
                      | _ => raise err
                      end) in
  match open_file rt file with
  | Absent => raise AttributeError
  | _ => handled
  end.

(** ** [extract_cpe] *)

(** [d[key]] on the attributes of an element. *)
Fixpoint lookup (key : string) (d : list (string * string)) : option string :=
  match d with
  | [] => None
  | (k, v) :: rest => if String.eqb k key then Some v else lookup key rest
  end.

(** The inner loop (lines 175-177). *)
Fixpoint extract_cpe_items (items : list element) (cpe_list : list string)
  : outcome (list string) :=
  match items with
  | [] => ret cpe_list
  | it :: rest =>
      if Str.contains "cpe23-item" (tag it)
      then name <- item (lookup "name" (attrib it)) ;;
           extract_cpe_items rest (cpe_list ++ [name])
      else extract_cpe_items rest cpe_list
  end.

(** The outer loop (line 174). *)
Fixpoint extract_cpe_entries (entries : list element) (cpe_list : list string)
  : outcome (list string) :=
  match entries with
  | [] => ret cpe_list
  | entry :: rest =>
      cpe_list' <- extract_cpe_items (elems entry) cpe_list ;;
      extract_cpe_entries rest cpe_list'
  end.

(** [extract_cpe(file)] (lines 159-179): only [Et.ParseError] is handled,
    by [exit(err)]. *)
Definition extract_cpe (rt : runtime) (file : string) : outcome (list string) :=
  match et_parse rt file with
  | NoDocument => raise FileNotFoundError
  | Malformed => raise SystemExit
  | Tree root => extract_cpe_entries (elems root) []
  end.

(** ** Unbinding *)

(** Modelled from the spec: [unbinding] is imported from [.meta], which is
    not among the sources at hand.  The rewriting of one token follows the
    IdentifierUnbinder contract: every dot that no backslash precedes gets a
    backslash in front of it, and every other character is copied.  As in
    the delimiter pattern of the source, a character counts as escaped when
    the character before it in the token is a backslash. *)
Fixpoint escape_dots (prev : option ascii) (s : string) : string :=
  match s with
  | EmptyString => EmptyString
  | String c s' =>
      if Str.unescaped_dot prev c
      then String Str.backslash (String c (escape_dots (Some c) s'))
      else String c (escape_dots (Some c) s')
  end.

(** Modelled from the spec: the normalization of one component token, the
    per-token step of the absent [unbinding]. *)
Definition unbind_token (attr : string) : string :=
  if String.eqb attr "*" then "ANY"
  else if String.eqb attr "-" then "NA"
  else escape_dots None attr.

(** Modelled from the spec: [unbinding(attributes)] of the absent [.meta],
    which normalizes each token on its own and keeps count and order. *)
Definition unbinding (attributes : list string) : list string :=
  map unbind_token attributes.

(** ** The table builders *)

(** A row is a Python tuple of strings. *)
Definition row : Type := list string.

(** [re.split(r'(?<!\\)[:]', entry)[2:]]: a slice never raises. *)
Definition components (entry : string) : list string :=
  skipn 2 (Str.re_split_colon entry).

(** The state of the first loop of [setup_cve_table]: the current id, the
    row under construction and the table. *)
Record cve_state : Type := CveState {
  ident : string;
  cur_row : row;
  cve_table : list row
}.

(** The first loop (lines 192-202). *)
Fixpoint cve_loop (cve_list : list string) (st : cve_state) : outcome cve_state :=
  match cve_list with
  | [] => ret st
  | entry :: rest =>
      if Str.is_cve_id entry
      then cve_loop rest (CveState entry (cur_row st) (cve_table st))
      else
        let r := cur_row st ++ [ident st] in
        year <- subscript (Str.split Str.dash (ident st)) 1 ;;
        let r := r ++ [year] in
        let r := r ++ [entry] in
        let r := r ++ unbinding (components entry) in
        cve_loop rest (CveState (ident st) [] (cve_table st ++ [r]))
  end.

(** The second loop (lines 205-213), on the row under construction and
    the summary table. *)
Fixpoint summary_loop (summary_list : list string) (r : row)
         (summary_table : list row) : outcome (list row) :=
  match summary_list with
  | [] => ret summary_table
  | entry :: rest =>
      if Str.is_cve_id entry
      then year <- subscript (Str.split Str.dash entry) 1 ;;
           summary_loop rest (r ++ [entry] ++ [year]) summary_table
      else summary_loop rest [] (summary_table ++ [r ++ [entry]])
  end.

(** [setup_cve_table(cve_list, summary_list)] (lines 182-215).  The row
    variable of the first loop is the one the second loop goes on with. *)
Definition setup_cve_table (cve_list summary_list : list string)
  : outcome (list row * list row) :=
  st <- cve_loop cve_list (CveState "" [] []) ;;
  summary_table <-
    (if is_empty summary_list then ret []
     else summary_loop summary_list (cur_row st) []) ;;
  ret (cve_table st, summary_table).

(** The loop of [setup_cpe_table] (lines 225-228): [row.insert(0, cpe)]
    puts the identifier in front of its unbound components. *)
Fixpoint cpe_loop (cpe_list : list string) (cpe_table : list row) : list row :=
  match cpe_list with
  | [] => cpe_table
  | cpe :: rest =>
      let r := unbinding (components cpe) in
      let r := cpe :: r in
      cpe_loop rest (cpe_table ++ [r])
  end.

(** [setup_cpe_table(cpe_list)] (lines 218-230). *)
Definition setup_cpe_table (cpe_list : list string) : list row :=
  cpe_loop cpe_list [].


(** ** The notions of the specification *)

(** *** Platform identifiers *)

(** Every colon of a field value has a backslash right before it. *)
Fixpoint colons_escaped (prev : option ascii) (s : string) : bool :=
  match s with
  | EmptyString => true
  | String c s' =>
      negb (Ascii.eqb c Str.colon && negb (Str.is_backslash prev))
      && colons_escaped (Some c) s'
  end.

(** The text, read after the character [prev], ends in a backslash, so
    that a colon put behind it would count as escaped. *)
Fixpoint escapes_next (prev : option ascii) (s : string) : bool :=
  match s with
  | EmptyString => Str.is_backslash prev
  | String c s' => escapes_next (Some c) s'
  end.

(** The colons of a text are backslash-escaped: each has a backslash
    right before it.  [after_backslash] tells whether the character before
    the text is one. *)
Fixpoint escaped_colons (after_backslash : bool) (s : string) : bool :=
  match s with
  | EmptyString => true
  | String c s' =>
      (if Ascii.eqb c ":" then after_backslash else true)
      && escaped_colons (Ascii.eqb c "\") s'
  end.

(** A field value of a bound identifier, in the words of the data model:
    the colons embedded in it are backslash-escaped. *)
Definition field_value (f : string) : bool := escaped_colons false f.

(** The last character of a text is a backslash, as in a field that ends
    in an escaped backslash. *)
Fixpoint ends_in_backslash (s : string) : bool :=
  match s with
  | EmptyString => false
  | String c EmptyString => Ascii.eqb c "\"
  | String _ s' => ends_in_backslash s'
  end.

(** No field but the last ends in a backslash. *)
Definition cleanly_delimited (fields : list string) : bool :=
  forallb (fun f => negb (ends_in_backslash f)) (removelast fields).

(** The pieces of a split, whatever the text: the first piece, read after
    [prev], and every later piece, read after a delimiter. *)
Definition pieces_hold (P : option ascii -> string -> Prop)
           (prev : option ascii) (pieces : list string) : Prop :=
  match pieces with
  | [] => True
  | t :: ts => P prev t /\ Forall (P None) ts
  end.

(** The binding of component fields behind the literal prefix. *)
Definition bind_fields (fields : list string) : string :=
  Str.join ":" ("cpe" :: "2.3" :: fields).

(** A well-formed PlatformIdentifier, in the words of the data model: the
    prefix [cpe], the version marker [2.3] and exactly 11 field values,
    colon-delimited. *)
Definition platform_identifier (s : string) : Prop :=
  exists fields,
    length fields = 11 /\ forallb field_value fields = true
    /\ s = bind_fields fields.

(** *** The channels of the feed extraction *)

(** A feed item all of whose fields are present. *)
Record vulnerability : Type := Vulnerability {
  vuln_id : string;
  description : string;
  match_nodes : list node
}.

Definition feed_item (v : vulnerability) : vuln_item :=
  VulnItem (Returned (vuln_id v)) (Returned (description v))
           (Returned (match_nodes v)).

(** Every field of the item can be read. *)
Definition readable_item (it : vuln_item) : bool :=
  match item_id it, item_summary it, item_nodes it with
  | inr _, inr _, inr _ => true
  | _, _, _ => false
  end.

(** What an item gives to the matched channel, in the words of the
    specification: its id and the deduplicated identifiers of its tree,
    when it has a node list that is not empty. *)
Definition spec_matched_channel (rt : runtime) (v : vulnerability) : list string :=
  match match_nodes v with
  | [] => []
  | _ :: _ => vuln_id v :: list_of_set rt (iterate_nodes (match_nodes v) [])
  end.

(** What an item gives to the summary channel: its id and description,
    when its node list is empty and it is not a rejected entry. *)
Definition spec_summary_channel (v : vulnerability) : list string :=
  match match_nodes v with
  | [] => if String.prefix reject_marker (description v) then []
          else [vuln_id v; description v]
  | _ :: _ => []
  end.

(** *** The rows of the vulnerability table *)

Definition is_identifier_token (t : string) : bool := negb (Str.is_cve_id t).

Definition identifier_tokens (tokens : list string) : list string :=
  filter is_identifier_token tokens.

(** The second dash-separated field of an id. *)
Definition year_field (id : string) : string :=
  nth 1 (Str.split Str.dash id) "".

(** The rows in the words of the specification: every identifier token
    gives one row, headed by the id seen last before it and the year of
    that id; [current] is the id in force when the scan begins. *)
Fixpoint spec_rows (current : string) (tokens : list string) : list row :=
  match tokens with
  | [] => []
  | t :: rest =>
      if Str.is_cve_id t then spec_rows t rest
      else (current :: year_field current :: t :: unbinding (components t))
             :: spec_rows current rest
  end.

(** The id in force after a scan. *)
Fixpoint current_id (current : string) (tokens : list string) : string :=
  match tokens with
  | [] => current
  | t :: rest => current_id (if Str.is_cve_id t then t else current) rest
  end.

(** The sequence is empty or opens with an id token. *)
Definition opens_with_id (tokens : list string) : bool :=
  match tokens with
  | [] => true
  | t :: _ => Str.is_cve_id t
  end.

(** *** The elements of the dictionary *)

Definition is_cpe23_item (e : element) : bool :=
  Str.contains "cpe23-item" (tag e).

(** Every element of a tree, in document order. *)
Fixpoint all_elements (e : element) : list element :=
  match e with
  | Element _ _ es => e :: flat_map all_elements es
  end.

(** The elements two levels below the root, in document order. *)
Definition grandchildren (root : element) : list element :=
  flat_map elems (elems root).

(** The [name] attributes of a list of elements; [None] when one of them
    has no such attribute. *)
Fixpoint names (es : list element) : option (list string) :=
  match es with
  | [] => Some []
  | e :: rest =>
      match lookup "name" (attrib e), names rest with
      | Some n, Some ns => Some (n :: ns)
      | _, _ => None
      end
  end.

(** The claim that items are collected wherever they occur. *)
Definition spec_names_anywhere (root : element) : option (list string) :=
  names (filter is_cpe23_item (all_elements root)).

(** The items the two loops reach. *)
Definition spec_names_at_depth_two (root : element) : option (list string) :=
  names (filter is_cpe23_item (grandchildren root)).

(** What the loops of [extract_cpe] return, given the names they find. *)
Definition returned_names (cpe_list : list string) (found : option (list string))
  : outcome (list string) :=
  match found with
  | Some ns => Returned (cpe_list ++ ns)
  | None => Raised KeyError
  end.

(** ** Downloading the feeds *)

Module Download.

(** How a call of the download functions ends when it does not return. *)
Inductive failure : Type :=
| Exit (message : string)   (* [exit(message)] raised [SystemExit] *)
| MissingKey                (* a subscript of the metadata raised [KeyError] *)
| Unpack.                   (* [ZipFile(...)] or [extractall] raised *)

Definition result : Type -> Type := sum failure.

#[global] Instance Monad_result : Monad result := Monad_either failure.
#[global] Instance Exception_result : MonadExc failure result :=
  Exception_either failure.

Definition key {A : Type} (field : option A) : result A :=
  match field with
  | Some v => ret v
  | None => raise MissingKey
  end.

(** The metadata [get_meta()] returns: [meta['source_urls'][...]]. *)
Record source_urls : Type := SourceUrls {
  cpe_source : option string;
  cve_source : option string
}.

Record meta : Type := Meta {
  urls : option source_urls
}.

(** The collaborators of the download functions, over a type [Disk] of
    states of what lies outside the process: the disk, and the servers with
    whatever they keep of the requests they got.  [format_int] and
    [format_str] are [str.format] with an [int] and with a [str] argument,
    for a template it accepts.  [requests_get] is
    [requests.get(url, allow_redirects=True)]: the state the request
    leaves, and the content of the response or the text of the
    [RequestException] it raised.  [extractall] is
    [ZipFile(BytesIO(content)).extractall(path)]: the state it leaves, and
    whether it returned. *)
Record services (Disk : Type) : Type := Services {
  today_year : Z;
  format_int : string -> Z -> string;
  format_str : string -> string -> string;
  get_meta : option meta;
  requests_get : string -> Disk -> Disk * (string + string);
  extractall : string -> string -> Disk -> Disk * bool
}.

Arguments Services {Disk}.
Arguments today_year {Disk}.
Arguments format_int {Disk}.
Arguments format_str {Disk}.
Arguments get_meta {Disk}.
Arguments requests_get {Disk}.
Arguments extractall {Disk}.

(** [str(year)]. *)
Definition str (year : Z) : string := NilZero.string_of_int (Z.to_int year).

(** [range(lo, hi)]. *)
Definition range (lo hi : Z) : list Z :=
  map (fun i => (lo + Z.of_nat i)%Z) (seq 0 (Z.to_nat (hi - lo))).

(** The loop of [get_cve_links] (lines 24-25). *)
Fixpoint links_loop {Disk : Type} (sv : services Disk) (url : string)
         (years : list Z) (cve_urls : list string) : list string :=
  match years with
  | [] => cve_urls
  | year :: rest => links_loop sv url rest (cve_urls ++ [format_int sv url year])
  end.

(** [get_cve_links(url)] (lines 15-27). *)
Definition get_cve_links {Disk : Type} (sv : services Disk) (url : string)
  : list string :=
  let current := today_year sv in
  links_loop sv url (range 2002 (current + 1)) [].

(** The list objects of a call, by reference: [download_cve] appends to
    the list its caller owns and returns that very list. *)
Definition ref : Type := nat.
Definition heap : Type := ref -> list string.

Definition set_list (h : heap) (r : ref) (l : list string) : heap :=
  fun r' => if Nat.eqb r' r then l else h r'.

(** [r.append(x)]. *)
Definition list_append (h : heap) (r : ref) (x : string) : heap :=
  set_list h r (h r ++ [x]).

(** [r.extend(src)] for a list [src]: the items [src] holds when the call
    begins are appended, also when [src] is [r] itself. *)
Definition list_extend (h : heap) (r src : ref) : heap :=
  set_list h r (h r ++ h src).

(** The inner loop of [download_cve] (lines 62-64). *)
Fixpoint years_loop (candidate : string) (years : list Z) (h : heap)
         (dl_urls : ref) : heap :=
  match years with
  | [] => h
  | year :: rest =>
      years_loop candidate rest
        (if Str.contains (str year) candidate
         then list_append h dl_urls candidate
         else h)
        dl_urls
  end.

(** The outer loop (line 61). *)
Fixpoint candidates_loop (cve_candidates : list string) (years : list Z)
         (h : heap) (dl_urls : ref) : heap :=
  match cve_candidates with
  | [] => h
  | candidate :: rest =>
      candidates_loop rest years (years_loop candidate years h dl_urls) dl_urls
  end.

(** [download_cve(dl_urls, years, meta)] (lines 48-66).  The test
    [cve_candidates is None] is made on the list [get_cve_links] built and
    never holds. *)
Definition download_cve {Disk : Type} (sv : services Disk) (h : heap)
           (dl_urls : ref) (years : option (list Z)) (m : meta)
  : result (heap * ref) :=
  us <- key (urls m) ;;
  url <- key (cve_source us) ;;
  let cve_candidates := get_cve_links sv url in
  match years with
  | None => raise (Exit "Error: The required years of CVE feeds are not specified")
  | Some ys => ret (candidates_loop cve_candidates ys h dl_urls, dl_urls)
  end.

(** [iterate_urls(dl_urls, path)] (lines 30-45), on the state outside. *)
Fixpoint iterate_urls {Disk : Type} (sv : services Disk)
         (dl_urls : list string) (path : string) (disk : Disk)
  : Disk * result unit :=
  match dl_urls with
  | [] => (disk, ret tt)
  | url :: rest =>
      let (disk, request) := requests_get sv url disk in
      match request with
      | inl err =>
          (disk,
           raise (Exit ("Error: URLs are invalid. URL format might have been changed or website might have moved. " ++ err)))
      | inr content =>
          let (disk', returned) := extractall sv content path disk in
          if returned then iterate_urls sv rest path disk'
          else (disk', raise Unpack)
      end
  end.

(** The list [download_data] builds (lines 80-95): [dl_urls] is the one
    list object of the call, at reference [0] of a heap of its own. *)
Definition download_list {Disk : Type} (sv : services Disk)
           (cpe cve update : bool) (years : option (list Z)) (m : meta)
  : result (list string) :=
  let dl_urls : ref := 0 in
  let h : heap := fun _ => [] in
  h <- (if cpe
        then us <- key (urls m) ;;
             url <- key (cpe_source us) ;;
             ret (list_append h dl_urls url)
        else ret h) ;;
  h <- (if update
        then us <- key (urls m) ;;
             url <- key (cve_source us) ;;
             ret (list_append h dl_urls (format_str sv url "modified"))
        else ret h) ;;
  h <- (if cve
        then hr <- download_cve sv h dl_urls years m ;;
             ret (list_extend (fst hr) dl_urls (snd hr))
        else ret h) ;;
  ret (h dl_urls).

(** [download_data(cpe, cve, update, path, years)] (lines 69-97). *)
Definition download_data {Disk : Type} (sv : services Disk)
           (cpe cve update : bool) (path : string) (years : option (list Z))
           (disk : Disk) : Disk * result unit :=
  match get_meta sv with
  | None =>
      (disk, raise (Exit "Error: No source URLs provided. Check metadata.json if required URL is set."))
  | Some m =>
      if negb cpe && negb cve && negb update
      then (disk, raise (Exit "Error: No file specified for download."))
      else
        match download_list sv cpe cve update years m with
        | inl e => (disk, inl e)
        | inr dl_urls => iterate_urls sv dl_urls path disk
        end
  end.

(** The candidates [download_cve] adds: each candidate once for every
    given year whose decimal text occurs in it. *)
Definition selected (cve_candidates : list string) (years : list Z)
  : list string :=
  flat_map (fun candidate =>
              flat_map (fun year =>
                          if Str.contains (str year) candidate
                          then [candidate] else [])
                       years)
           cve_candidates.

End Download.

(** ** The data of the module's tests *)

Module TestData.

Definition NODES : list node :=
  [Node "AND"
     None
     (Some [Node "OR"
           (Some [CpeMatch true "cpe:2.3:a:microsoft:ie:6:*:*:*:*:*:*:*"])
           None;
         Node "OR"
           (Some [CpeMatch false "cpe:2.3:o: microsoft:windows_xp:*:sp3:*:*:*:*:*:*";
                 CpeMatch false "cpe:2.3:o:microsoft:windows_xp:-:sp2:x64:*:*:*:*:*"])
           None]);
   Node "AND"
     None
     (Some [Node "OR"
           (Some [CpeMatch true "cpe:2.3:a:microsoft:ie:9:*:*:*:*:*:*:*"])
           None;
         Node "OR"
           (Some [CpeMatch false "cpe:2.3:o:microsoft:windows_7:*:*:x64:*:*:*:*:*";
                 CpeMatch false "cpe:2.3:o:microsoft:windows_7:*:*:x86:*:*:*:*:*";
                 CpeMatch false "cpe:2.3:o:microsoft:windows_7:*:sp1:x64:*:*:*:*:*";
                 CpeMatch false "cpe:2.3:o:microsoft:windows_7:*:sp1:x86:*:*:*:*:*";
                 CpeMatch false "cpe:2.3:o:microsoft:windows_vista:*:sp2:*:*:*:*:*:*";
                 CpeMatch false "cpe:2.3:o:microsoft:windows_vista:*:sp2:x64:*:*:*:*:*";
                 CpeMatch false "cpe:2.3:o:microsoft:windows_xp:*:sp3:*:*:*:*:*:*"])
           None]);
   Node "AND"
     None
     (Some [Node "OR"
           (Some [CpeMatch true "cpe:2.3:a:microsoft:ie:7:*:*:*:*:*:*:*"])
           None;
         Node "OR"
           (Some [CpeMatch false "cpe:2.3:o:microsoft:windows_vista:*:sp2:*:*:*:*:*:*";
                 CpeMatch false "cpe:2.3:o:microsoft:windows_vista:*:sp2:x64:*:*:*:*:*";
                 CpeMatch false "cpe:2.3:o:microsoft:windows_xp:*:sp3:*:*:*:*:*:*";
                 CpeMatch false "cpe:2.3:o:microsoft:windows_xp:-:sp2:x64:*:*:*:*:*"])
           None]);
   Node "AND"
     None
     (Some [Node "OR"
           (Some [CpeMatch true "cpe:2.3:a:microsoft:ie:8:*:*:*:*:*:*:*"])
           None;
         Node "OR"
           (Some [CpeMatch false "cpe:2.3:o:microsoft:windows_7:*:*:x64:*:*:*:*:*";
                 CpeMatch false "cpe:2.3:o:microsoft:windows_7:*:*:x86:*:*:*:*:*";
                 CpeMatch false "cpe:2.3:o:microsoft:windows_7:*:sp1:x64:*:*:*:*:*";
                 CpeMatch false "cpe:2.3:o:microsoft:windows_7:*:sp1:x86:*:*:*:*:*";
                 CpeMatch false "cpe:2.3:o:microsoft:windows_vista:*:sp2:*:*:*:*:*:*";
                 CpeMatch false "cpe:2.3:o:microsoft:windows_vista:*:sp2:x64:*:*:*:*:*";
                 CpeMatch false "cpe:2.3:o:microsoft:windows_xp:*:sp3:*:*:*:*:*:*"])
           None])].

Definition NODE_LIST : list string :=
  ["cpe:2.3:a:microsoft:ie:6:*:*:*:*:*:*:*";
   "cpe:2.3:a:microsoft:ie:9:*:*:*:*:*:*:*";
   "cpe:2.3:a:microsoft:ie:7:*:*:*:*:*:*:*";
   "cpe:2.3:a:microsoft:ie:8:*:*:*:*:*:*:*"].

Definition CVE_LIST : list string :=
  ["CVE-2012-0001";
   "cpe:2.3:a:\$0.99_kindle_bo\:oks_project:\$0.99_kindle_books:6:*:*:*:*:android:*:*";
   "cpe:2.3:a:1000guess:1000_guess:-:*:*:*:*:*:*:*";
   "cpe:2.3:a:1024cms:1024_cms:0.7:*:*:*:*:*:*:*";
   "cpe:2.3:a:1024cms:1024_cms:1.2.5:*:*:*:*:*:*:*";
   "CVE-2012-0002";
   "cpe:2.3:a:1024cms:1024_cms:1.3.1:*:*:*:*:*:*:*"].

Definition SUMMARY_LIST : list string :=
  ["CVE-2018-20229";
   "GitLab Community and Enterprise Edition before 11.3.14, 11.4.x before 11.4.12, and 11.5.x before 11.5.5 allows Directory Traversal.";
   "CVE-2018-0010";
   "Microsoft Internet Explorer 6 through 9 does not properly perform copy-and-paste operations, which allows user-assisted remote attackers to read content from a different (1) domain or (2) zone via a crafted web site, aka 'Copy and Paste Information Disclosure Vulnerability.'"].

Definition CPE_LIST : list string :=
  ["cpe:2.3:a:\$0.99_kindle_books_project:\$0.99_kindle_books:6:*:*:*:*:android:*:*";
   "cpe:2.3:a:1000guess:1000_guess:-:*:*:*:*:*:*:*";
   "cpe:2.3:a:1024cms:1024_cms:0.7:*:*:*:*:*:*:*";
   "cpe:2.3:a:1024cms:1024_cms:1.2.5:*:*:*:*:*:*:*";
   "cpe:2.3:a:1024cms:1024_cms:1.3.1:*:*:*:*:*:*:*"].

Definition CVE_TABLE : list row :=
  [["CVE-2012-0001";
    "2012";
    "cpe:2.3:a:\$0.99_kindle_bo\:oks_project:\$0.99_kindle_books:6:*:*:*:*:android:*:*";
    "a";
    "\$0\.99_kindle_bo\:oks_project";
    "\$0\.99_kindle_books";
    "6";
    "ANY";
    "ANY";
    "ANY";
    "ANY";
    "android";
    "ANY";
    "ANY"];
   ["CVE-2012-0001";
    "2012";
    "cpe:2.3:a:1000guess:1000_guess:-:*:*:*:*:*:*:*";
    "a";
    "1000guess";
    "1000_guess";
    "NA";
    "ANY";
    "ANY";
    "ANY";
    "ANY";
    "ANY";
    "ANY";
    "ANY"];
   ["CVE-2012-0001";
    "2012";
    "cpe:2.3:a:1024cms:1024_cms:0.7:*:*:*:*:*:*:*";
    "a";
    "1024cms";
    "1024_cms";
    "0\.7";
    "ANY";
    "ANY";
    "ANY";
    "ANY";
    "ANY";
    "ANY";
    "ANY"];
   ["CVE-2012-0001";
    "2012";
    "cpe:2.3:a:1024cms:1024_cms:1.2.5:*:*:*:*:*:*:*";
    "a";
    "1024cms";
    "1024_cms";
    "1\.2\.5";
    "ANY";
    "ANY";
    "ANY";
    "ANY";
    "ANY";
    "ANY";
    "ANY"];
   ["CVE-2012-0002";
    "2012";
    "cpe:2.3:a:1024cms:1024_cms:1.3.1:*:*:*:*:*:*:*";
    "a";
    "1024cms";
    "1024_cms";
    "1\.3\.1";
    "ANY";
    "ANY";
    "ANY";
    "ANY";
    "ANY";
    "ANY";
    "ANY"]].

Definition SUMMARY_TABLE : list row :=
  [["CVE-2018-20229";
    "2018";
    "GitLab Community and Enterprise Edition before 11.3.14, 11.4.x before 11.4.12, and 11.5.x before 11.5.5 allows Directory Traversal."];
   ["CVE-2018-0010";
    "2018";
    "Microsoft Internet Explorer 6 through 9 does not properly perform copy-and-paste operations, which allows user-assisted remote attackers to read content from a different (1) domain or (2) zone via a crafted web site, aka 'Copy and Paste Information Disclosure Vulnerability.'"]].

Definition CPE_TABLE : list row :=
  [["cpe:2.3:a:\$0.99_kindle_books_project:\$0.99_kindle_books:6:*:*:*:*:android:*:*";
    "a";
    "\$0\.99_kindle_books_project";
    "\$0\.99_kindle_books";
    "6";
    "ANY";
    "ANY";
    "ANY";
    "ANY";
    "android";
    "ANY";
    "ANY"];
   ["cpe:2.3:a:1000guess:1000_guess:-:*:*:*:*:*:*:*";
    "a";
    "1000guess";
    "1000_guess";
    "NA";
    "ANY";
    "ANY";
    "ANY";
    "ANY";
    "ANY";
    "ANY";
    "ANY"];
   ["cpe:2.3:a:1024cms:1024_cms:0.7:*:*:*:*:*:*:*";
    "a";
    "1024cms";
    "1024_cms";
    "0\.7";
    "ANY";
    "ANY";
    "ANY";
    "ANY";
    "ANY";
    "ANY";
    "ANY"];
   ["cpe:2.3:a:1024cms:1024_cms:1.2.5:*:*:*:*:*:*:*";
    "a";
    "1024cms";
    "1024_cms";
    "1\.2\.5";
    "ANY";
    "ANY";
    "ANY";
    "ANY";
    "ANY";
    "ANY";
    "ANY"];
   ["cpe:2.3:a:1024cms:1024_cms:1.3.1:*:*:*:*:*:*:*";
    "a";
    "1024cms";
    "1024_cms";
    "1\.3\.1";
    "ANY";
    "ANY";
    "ANY";
    "ANY";
    "ANY";
    "ANY";
    "ANY"]].

(** A feed of three items: one with a match tree, one without a tree, one
    rejected. *)
Definition VULNERABILITIES : list vulnerability :=
  [Vulnerability "CVE-2012-0010"
     "Microsoft Internet Explorer 6 through 9 does not properly perform copy-and-paste operations"
     NODES;
   Vulnerability "CVE-2018-8825"
     "Google TensorFlow 1.7 and below is affected by: Buffer Overflow."
     [];
   Vulnerability "CVE-2012-0007"
     "** REJECT ** DO NOT USE THIS CANDIDATE NUMBER."
     []].

(** A dictionary with one item entry, an item right below the root and an
    item three levels down. *)
Definition DICTIONARY : element :=
  Element "{http://cpe.mitre.org/dictionary/2.0}cpe-list" []
    [Element "{http://cpe.mitre.org/dictionary/2.0}cpe-item"
       [("name", "cpe:/a:1000guess:1000_guess")]
       [Element "{http://cpe.mitre.org/dictionary/2.0}title" [] [];
        Element "{http://scap.nist.gov/schema/cpe-extension/2.3}cpe23-item"
          [("name", "cpe:2.3:a:1000guess:1000_guess:-:*:*:*:*:*:*:*")] [];
        Element "{http://cpe.mitre.org/dictionary/2.0}notes" []
          [Element "{http://scap.nist.gov/schema/cpe-extension/2.3}cpe23-item"
             [("name", "cpe:2.3:a:1024cms:1024_cms:0.7:*:*:*:*:*:*:*")] []]];
     Element "{http://scap.nist.gov/schema/cpe-extension/2.3}cpe23-item"
       [("name", "cpe:2.3:a:1024cms:1024_cms:1.2.5:*:*:*:*:*:*:*")] []].

(** Surroundings with a feed, a feed cut short, a file that cannot be
    read, a dictionary and a dictionary cut short; a set is listed in the
    order of first occurrence. *)
Definition RUNTIME : runtime :=
  Runtime
    (fun file =>
       if String.eqb file "nvdcve-1.0-2012.json" then Content "feed"
       else if String.eqb file "truncated.json" then Content "{"
       else if String.eqb file "locked.json" then Unreadable
       else Absent)
    (fun text =>
       if String.eqb text "feed"
       then Some (Feed (Some (map feed_item VULNERABILITIES)))
       else None)
    (fun file =>
       if String.eqb file "official-cpe-dictionary_v2.3.xml" then Tree DICTIONARY
       else if String.eqb file "truncated.xml" then Malformed
       else NoDocument)
    (fun l => rev (nodup string_dec (rev l))).

(** Fills the first [{}] of a template. *)
Fixpoint fill (template arg : string) : string :=
  match template with
  | EmptyString => EmptyString
  | String "{"%char (String "}"%char rest) => arg ++ rest
  | String c rest => String c (fill rest arg)
  end.

(** Services in the year 2019; the server has no feed for 2003, a
    response is its own URL, and unpacking it records where it went. *)
Definition SERVICES : Download.services (list (string * string)) :=
  Download.Services
    2019%Z
    (fun url year => fill url (Download.str year))
    fill
    (Some (Download.Meta (Some (Download.SourceUrls
       (Some "https://nvd.nist.gov/feeds/xml/cpe/dictionary/official-cpe-dictionary_v2.3.xml.zip")
       (Some "https://nvd.nist.gov/feeds/json/cve/1.0/nvdcve-1.0-{}.json.zip")))))
    (fun url disk =>
       (disk, if Str.contains "2003" url then inl "404" else inr url))
    (fun content path disk => (disk ++ [(path, content)], true)).

(** What a server or the disk has seen. *)
Inductive event : Type :=
| Requested (url : string)
| Unpacked (path content : string).

(** The same services, with every request and every unpacking on
    record. *)
Definition RECORDED : Download.services (list event) :=
  Download.Services
    2019%Z
    (fun url year => fill url (Download.str year))
    fill
    (Download.get_meta SERVICES)
    (fun url seen =>
       (seen ++ [Requested url],
        if Str.contains "2003" url then inl "404" else inr url))
    (fun content path seen => (seen ++ [Unpacked path content], true)).

End TestData.

(** * Properties *)

(** ** The tests of the module, replayed on the model *)

Example test_iterate_nodes :
  iterate_nodes TestData.NODES [] = TestData.NODE_LIST.
Proof. reflexivity. Qed.

Example test_setup_cve_table :
  setup_cve_table TestData.CVE_LIST TestData.SUMMARY_LIST
  = Returned (TestData.CVE_TABLE, TestData.SUMMARY_TABLE).
Proof. vm_compute. reflexivity. Qed.

Example test_setup_cpe_table :
  setup_cpe_table TestData.CPE_LIST = TestData.CPE_TABLE.
Proof. vm_compute. reflexivity. Qed.

(** ** Strings *)

Example split_year : Str.split Str.dash "CVE-2012-0001" = ["CVE"; "2012"; "0001"].
Proof. reflexivity. Qed.

Example split_empty : Str.split Str.dash "" = [""].
Proof. reflexivity. Qed.

Example re_split_escaped :
  Str.re_split_colon "cpe:2.3:a:\$0.99_kindle_bo\:oks_project:x"
  = ["cpe"; "2.3"; "a"; "\$0.99_kindle_bo\:oks_project"; "x"].
Proof. reflexivity. Qed.

Example is_cve_id_yes : Str.is_cve_id "CVE-2012-0001" = true.
Proof. reflexivity. Qed.

Example is_cve_id_no : Str.is_cve_id "cpe:2.3:a:1000guess:1000_guess:-:*:*:*:*:*:*:*" = false.
Proof. reflexivity. Qed.

(** ** The match-tree walker *)

Lemma append_vulnerable_filter (matches : list cpe_match_entry) :
  forall acc,
    append_vulnerable matches acc
    = acc ++ map cpe23Uri (filter vulnerable matches).
Proof.
  induction matches as [|m ms IH]; intros acc; simpl.
  - now rewrite app_nil_r.
  - destruct (vulnerable m); simpl; rewrite IH; [|reflexivity].
    now rewrite <- app_assoc.
Qed.

Lemma iterate_nodes_cons (d : node) (rest : list node) (acc : list string) :
  iterate_nodes (d :: rest) acc = iterate_nodes rest (iterate_node d acc).
Proof. reflexivity. Qed.

Lemma iterate_nodes_app (l1 l2 : list node) (acc : list string) :
  iterate_nodes (l1 ++ l2) acc = iterate_nodes l2 (iterate_nodes l1 acc).
Proof. unfold iterate_nodes. apply fold_left_app. Qed.

(** The loop body as the source writes it, with the recursive call on the
    children spelled [iterate_nodes]. *)
Lemma iterate_node_unfold (d : node) (acc : list string) :
  iterate_node d acc
  = match cpe_match d with
    | Some matches => append_vulnerable matches acc
    | None =>
        match children d with
        | Some cs => iterate_nodes cs acc
        | None => acc
        end
    end.
Proof. destruct d as [op [ms|] [cs|]]; reflexivity. Qed.

Lemma filter_flat_map {A B : Type} (p : B -> bool) (f : A -> list B) (l : list A) :
  filter p (flat_map f l) = flat_map (fun a => filter p (f a)) l.
Proof.
  induction l as [|a l IH]; simpl; [reflexivity|].
  now rewrite filter_app, IH.
Qed.

Lemma iterate_node_shape (n : node) :
  match_tree_shape n = true ->
  forall acc,
    iterate_node n acc
    = acc ++ map cpe23Uri (filter vulnerable (spec_leaves n)).
Proof.
  induction n using node_nested_ind with
    (Q := fun ns =>
            forallb match_tree_shape ns = true ->
            forall acc,
              iterate_nodes ns acc
              = acc ++ map cpe23Uri (filter vulnerable (flat_map spec_leaves ns))).
  - intros _ acc. destruct cm as [ms|]; simpl.
    + now rewrite app_nil_r, append_vulnerable_filter.
    + now rewrite app_nil_r.
  - intros Hshape acc. destruct cm as [ms|]; simpl in Hshape; [discriminate|].
    simpl. now apply IHn.
  - intros _ acc. simpl. now rewrite app_nil_r.
  - intros Hshape acc. simpl in Hshape.
    apply andb_true_iff in Hshape as [Hn Hns].
    rewrite iterate_nodes_cons, IHn by assumption.
    rewrite IHn0 by assumption. simpl.
    now rewrite filter_app, map_app, app_assoc.
Qed.

Lemma iterate_nodes_shape (nodes : list node) :
  forallb match_tree_shape nodes = true ->
  forall acc, iterate_nodes nodes acc = acc ++ spec_vulnerable_ids nodes.
Proof.
  unfold spec_vulnerable_ids.
  induction nodes as [|n ns IH]; intros Hshape acc.
  - simpl. now rewrite app_nil_r.
  - simpl in Hshape. apply andb_true_iff in Hshape as [Hn Hns].
    rewrite iterate_nodes_cons, iterate_node_shape, IH by assumption.
    cbn [flat_map]. now rewrite filter_app, map_app, app_assoc.
Qed.

Lemma iterate_node_retag (f : string -> string) (n : node) :
  forall acc, iterate_node (retag f n) acc = iterate_node n acc.
Proof.
  induction n using node_nested_ind with
    (Q := fun ns =>
            forall acc,
              iterate_nodes (map (retag f) ns) acc = iterate_nodes ns acc).
  - intros acc. destruct cm; reflexivity.
  - intros acc. destruct cm; simpl; [reflexivity|]. apply IHn.
  - reflexivity.
  - intros acc. cbn [map]. rewrite !iterate_nodes_cons, IHn. apply IHn0.
Qed.

Lemma iterate_nodes_retag (f : string -> string) (nodes : list node) :
  forall acc, iterate_nodes (map (retag f) nodes) acc = iterate_nodes nodes acc.
Proof.
  induction nodes as [|n ns IH]; intros acc; [reflexivity|].
  cbn [map]. now rewrite !iterate_nodes_cons, iterate_node_retag, IH.
Qed.

(** C1: on a list of match-tree nodes (each node carries leaf matches, or
    children, or neither), [iterate_nodes] returns the accumulator followed
    by the identifiers of all leaves flagged vulnerable, whatever their
    depth; the result does not depend on the operator tags; and a node that
    carries neither key can be dropped without changing the result. *)
Theorem iterate_nodes_collects_vulnerable (nodes : list node) (acc : list string) :
  forallb match_tree_shape nodes = true ->
  iterate_nodes nodes acc = acc ++ spec_vulnerable_ids nodes
  /\ (forall f, iterate_nodes (map (retag f) nodes) acc = iterate_nodes nodes acc)
  /\ (forall op before after,
         nodes = before ++ Node op None None :: after ->
         iterate_nodes nodes acc = iterate_nodes (before ++ after) acc).
Proof.
  intros Hshape. split; [|split].
  - now apply iterate_nodes_shape.
  - intros f. apply iterate_nodes_retag.
  - intros op before after ->.
    now rewrite !iterate_nodes_app, iterate_nodes_cons.
Qed.

Lemma iterate_nodes_collects_vulnerable_witness :
  forallb match_tree_shape TestData.NODES = true
  /\ iterate_nodes TestData.NODES ["seen"]
     = ["seen"] ++ spec_vulnerable_ids TestData.NODES.
Proof.
  split; [reflexivity|].
  apply (iterate_nodes_collects_vulnerable TestData.NODES ["seen"]).
  reflexivity.
Defined.

(** C10: a node that carries both keys is handled by its leaf matches
    alone.  Its children are never read: the walk gives what it gives on
    the node without them, so a vulnerable leaf below them is left out. *)
Theorem iterate_nodes_ignores_children_beside_matches
        (op : string) (matches : list cpe_match_entry) (cs : list node)
        (before after : list node) (acc : list string) :
  iterate_nodes (before ++ Node op (Some matches) (Some cs) :: after) acc
  = iterate_nodes (before ++ Node op (Some matches) None :: after) acc
  /\ iterate_nodes [Node op (Some matches) (Some cs)] acc
     = acc ++ map cpe23Uri (filter vulnerable matches).
Proof.
  split.
  - now rewrite !iterate_nodes_app, !iterate_nodes_cons.
  - unfold iterate_nodes. simpl. apply append_vulnerable_filter.
Qed.

(** A vulnerable leaf below the children of a node that also carries leaf
    matches is part of the tree and absent from the walk. *)
Example vulnerable_leaf_left_out :
  let below := Node "OR" (Some [CpeMatch true "cpe:2.3:a:b:c:1:*:*:*:*:*:*:*"]) None in
  let both := Node "AND" (Some [CpeMatch false "cpe:2.3:o:d:e:*:*:*:*:*:*:*:*"])
                   (Some [below]) in
  iterate_nodes [both] [] = []
  /\ spec_vulnerable_ids [both] = ["cpe:2.3:a:b:c:1:*:*:*:*:*:*:*"].
Proof. split; reflexivity. Qed.

(** ** Splitting and joining *)

Lemma split_where_not_nil delim prev s : Str.split_where delim prev s <> [].
Proof.
  destruct s as [|c s]; simpl; [discriminate|].
  destruct (delim prev c); [discriminate|].
  destruct (Str.split_where delim (Some c) s); discriminate.
Qed.

Lemma join_push sep c pieces :
  pieces <> [] ->
  Str.join sep (Str.push c pieces) = String c (Str.join sep pieces).
Proof.
  destruct pieces as [|t [|u ts]]; intros H; [contradiction| |]; reflexivity.
Qed.

Lemma join_cons sep p ps :
  ps <> [] -> Str.join sep (p :: ps) = (p ++ sep ++ Str.join sep ps)%string.
Proof. destruct ps; [contradiction|reflexivity]. Qed.

(** Joining the pieces of a split with the delimiter gives the text back. *)
Lemma join_split_where sep delim :
  (forall prev c, delim prev c = true -> c = sep) ->
  forall s prev, Str.join (String sep "") (Str.split_where delim prev s) = s.
Proof.
  intros Hsep s. induction s as [|c s IH]; intros prev; [reflexivity|].
  simpl. destruct (delim prev c) eqn:E.
  - rewrite join_cons by apply split_where_not_nil.
    simpl. now rewrite IH, (Hsep _ _ E).
  - rewrite join_push by apply split_where_not_nil. now rewrite IH.
Qed.

Lemma unescaped_colon_is_colon prev c :
  Str.unescaped_colon prev c = true -> c = Str.colon.
Proof.
  unfold Str.unescaped_colon. intros H.
  apply andb_true_iff in H as [H _]. now apply Ascii.eqb_eq.
Qed.

(** The character before a text matters to the split only as far as it is
    a backslash or not. *)
Lemma split_colon_prev p q s :
  Str.is_backslash p = Str.is_backslash q ->
  Str.split_where Str.unescaped_colon p s
  = Str.split_where Str.unescaped_colon q s.
Proof.
  intros H. destruct s as [|c s]; [reflexivity|].
  simpl. unfold Str.unescaped_colon. now rewrite H.
Qed.

Lemma colons_escaped_prev p q s :
  Str.is_backslash p = Str.is_backslash q ->
  colons_escaped p s = colons_escaped q s.
Proof. intros H. destruct s as [|c s]; [reflexivity|]. simpl. now rewrite H. Qed.

Lemma escapes_next_prev p q s :
  Str.is_backslash p = Str.is_backslash q ->
  escapes_next p s = escapes_next q s.
Proof. intros H. destruct s as [|c s]; [assumption|reflexivity]. Qed.

(** A text whose colons are all escaped is one piece. *)
Lemma split_colon_single f :
  forall prev,
    colons_escaped prev f = true ->
    Str.split_where Str.unescaped_colon prev f = [f].
Proof.
  induction f as [|c f IH]; intros prev H; [reflexivity|].
  simpl in *. apply andb_true_iff in H as [Hc Hf].
  apply negb_true_iff in Hc. fold (Str.unescaped_colon prev c) in Hc.
  now rewrite Hc, IH.
Qed.

(** A field value followed by a colon is cut off at that colon. *)
Lemma split_colon_field f rest :
  forall prev,
    colons_escaped prev f = true ->
    escapes_next prev f = false ->
    Str.split_where Str.unescaped_colon prev (f ++ String Str.colon rest)%string
    = f :: Str.split_where Str.unescaped_colon (Some Str.colon) rest.
Proof.
  induction f as [|c f IH]; intros prev Hc He; simpl in *.
  - unfold Str.unescaped_colon. now rewrite He.
  - apply andb_true_iff in Hc as [Hc Hf].
    apply negb_true_iff in Hc. fold (Str.unescaped_colon prev c) in Hc.
    now rewrite Hc, IH.
Qed.

(** The field values of the data model, in the terms of the split. *)
Lemma escaped_colons_split (s : string) :
  forall prev,
    escaped_colons (Str.is_backslash prev) s = colons_escaped prev s.
Proof.
  induction s as [|c s IH]; intros prev; [reflexivity|].
  cbn [escaped_colons colons_escaped]. rewrite <- (IH (Some c)).
  cbn [Str.is_backslash]. unfold Str.colon, Str.backslash.
  destruct (Ascii.eqb c ":"); destruct (Str.is_backslash prev); reflexivity.
Qed.

Lemma field_value_colons_escaped (f : string) :
  field_value f = colons_escaped None f.
Proof. apply (escaped_colons_split f None). Qed.

Lemma ends_in_backslash_escapes (f : string) :
  forall prev,
    escapes_next prev f
    = match f with
      | EmptyString => Str.is_backslash prev
      | String _ _ => ends_in_backslash f
      end.
Proof.
  induction f as [|c f IH]; intros prev; [reflexivity|].
  cbn [escapes_next ends_in_backslash]. rewrite IH.
  destruct f; reflexivity.
Qed.

Lemma ends_in_backslash_next (f : string) :
  ends_in_backslash f = escapes_next None f.
Proof. rewrite ends_in_backslash_escapes. now destruct f. Qed.

(** Splitting the binding of field values of which none but the last ends
    in a backslash gives the field values back. *)
Lemma split_colon_join fields :
  fields <> [] ->
  forallb field_value fields = true ->
  cleanly_delimited fields = true ->
  forall prev,
    Str.is_backslash prev = false ->
    Str.split_where Str.unescaped_colon prev (Str.join ":" fields)
    = fields.
Proof.
  unfold cleanly_delimited.
  induction fields as [|f fs IH]; intros Hne Hall Hclean prev Hprev;
    [contradiction|].
  cbn [forallb] in Hall. apply andb_true_iff in Hall as [Hc Hfs].
  rewrite field_value_colons_escaped in Hc.
  rewrite (colons_escaped_prev None prev) in Hc by now rewrite Hprev.
  destruct fs as [|g gs].
  - simpl. now apply split_colon_single.
  - change (removelast (f :: g :: gs)) with (f :: removelast (g :: gs))
      in Hclean.
    cbn [forallb] in Hclean. apply andb_true_iff in Hclean as [He Hgs].
    apply negb_true_iff in He. rewrite ends_in_backslash_next in He.
    rewrite (escapes_next_prev None prev) in He by now rewrite Hprev.
    rewrite join_cons by discriminate.
    change (f ++ ":" ++ Str.join ":" (g :: gs))%string
      with (f ++ String Str.colon (Str.join ":" (g :: gs)))%string.
    rewrite split_colon_field by assumption.
    f_equal. apply IH; [discriminate|assumption|assumption|reflexivity].
Qed.

Lemma pieces_hold_forall P pieces :
  pieces_hold P None pieces -> Forall (P None) pieces.
Proof. destruct pieces; simpl; [constructor|]. intros [H1 H2]. now constructor. Qed.

(** No piece of a split holds a colon that is not escaped. *)
Lemma split_colon_pieces_escaped s :
  forall prev,
    pieces_hold (fun p t => colons_escaped p t = true) prev
                (Str.split_where Str.unescaped_colon prev s).
Proof.
  induction s as [|c s IH]; intros prev; simpl; [now split|].
  destruct (Str.unescaped_colon prev c) eqn:E.
  - simpl. split; [reflexivity|].
    apply (pieces_hold_forall (fun p t => colons_escaped p t = true)).
    rewrite (split_colon_prev (Some c) None); [apply IH|].
    apply unescaped_colon_is_colon in E. now subst c.
  - specialize (IH (Some c)).
    destruct (Str.split_where Str.unescaped_colon (Some c) s) as [|t ts];
      simpl in *.
    + fold (Str.unescaped_colon prev c). now rewrite E.
    + fold (Str.unescaped_colon prev c). rewrite E. simpl. tauto.
Qed.

(** No piece but the last ends in a backslash: the colon that ended it was
    not an escaped one. *)
Lemma split_colon_delimiters_unescaped s :
  forall prev,
    pieces_hold (fun p t => escapes_next p t = false) prev
                (removelast (Str.split_where Str.unescaped_colon prev s)).
Proof.
  induction s as [|c s IH]; intros prev; [exact I|].
  cbn [Str.split_where].
  destruct (Str.unescaped_colon prev c) eqn:E.
  - pose proof (split_where_not_nil Str.unescaped_colon (Some c) s) as Hne.
    destruct (Str.split_where Str.unescaped_colon (Some c) s) as [|t ts] eqn:Es;
      [contradiction|].
    change (removelast ("" :: t :: ts)) with ("" :: removelast (t :: ts)).
    split.
    + unfold Str.unescaped_colon in E. apply andb_true_iff in E as [_ E].
      now apply negb_true_iff in E.
    + apply (pieces_hold_forall (fun p t => escapes_next p t = false)). rewrite <- Es.
      rewrite (split_colon_prev (Some c) None); [apply IH|].
      apply unescaped_colon_is_colon in E. now subst c.
  - specialize (IH (Some c)).
    destruct (Str.split_where Str.unescaped_colon (Some c) s) as [|t ts];
      [exact I|].
    destruct ts as [|u us]; [exact I|].
    change (removelast (Str.push c (t :: u :: us)))
      with (String c t :: removelast (u :: us)).
    change (removelast (t :: u :: us)) with (t :: removelast (u :: us)) in IH.
    exact IH.
Qed.

Lemma bind_fields_components fields :
  fields <> [] ->
  forallb field_value fields = true ->
  cleanly_delimited fields = true ->
  components (bind_fields fields) = fields.
Proof.
  intros Hne Hall Hclean. unfold components, bind_fields, Str.re_split_colon.
  rewrite split_colon_join; [reflexivity|discriminate| | |reflexivity].
  - cbn [forallb]. now rewrite Hall.
  - unfold cleanly_delimited in *. destruct fields as [|f fs]; [contradiction|].
    change (removelast ("cpe" :: "2.3" :: f :: fs))
      with ("cpe" :: "2.3" :: removelast (f :: fs)).
    cbn [forallb]. now rewrite Hclean.
Qed.

Lemma removelast_skipn_two (l fields : list string) :
  fields <> [] -> skipn 2 l = fields ->
  exists a b, removelast l = a :: b :: removelast fields.
Proof.
  intros Hne H. destruct l as [|a [|b l]]; simpl in H;
    try (subst fields; contradiction).
  subst l. exists a, b. destruct fields as [|f fs]; [contradiction|].
  reflexivity.
Qed.

(** When the split gives the fields back, no field but the last ends in a
    backslash. *)
Lemma components_bind_fields_clean fields :
  fields <> [] ->
  components (bind_fields fields) = fields ->
  cleanly_delimited fields = true.
Proof.
  intros Hne H. unfold components in H.
  destruct (removelast_skipn_two _ _ Hne H) as (a & b & Hrem).
  pose proof (split_colon_delimiters_unescaped (bind_fields fields) None)
    as Hpieces.
  apply (pieces_hold_forall (fun p t => escapes_next p t = false)) in Hpieces.
  unfold Str.re_split_colon in Hrem. rewrite Hrem in Hpieces.
  inversion Hpieces as [|? ? _ Htail]; subst.
  inversion Htail as [|? ? _ Hfields]; subst.
  unfold cleanly_delimited. apply forallb_forall. intros f Hf.
  rewrite Forall_forall in Hfields.
  now rewrite ends_in_backslash_next, (Hfields f Hf).
Qed.

(** C5, as the code has it: for 11 field values bound behind the prefix,
    splitting the identifier at the colons that no backslash precedes and
    dropping the two prefix tokens gives the 11 fields back exactly when
    none of the first ten fields ends in a backslash; in every piece of the
    split every colon is an escaped one, and no colon the split cut at had a
    backslash before it. *)
Theorem components_of_platform_identifier (fields : list string) :
  length fields = 11 ->
  forallb field_value fields = true ->
  (cleanly_delimited fields = true
   <-> components (bind_fields fields) = fields)
  /\ (cleanly_delimited fields = true ->
      length (components (bind_fields fields)) = 11)
  /\ Forall (fun t => colons_escaped None t = true)
            (Str.re_split_colon (bind_fields fields))
  /\ Forall (fun t => escapes_next None t = false)
            (removelast (Str.re_split_colon (bind_fields fields))).
Proof.
  intros Hlen Hall.
  assert (Hne : fields <> []) by (destruct fields; [discriminate|discriminate]).
  split; [|split; [|split]].
  - split.
    + now apply bind_fields_components.
    + now apply components_bind_fields_clean.
  - intros Hclean. now rewrite bind_fields_components.
  - apply (pieces_hold_forall (fun p t => colons_escaped p t = true)),
      split_colon_pieces_escaped.
  - apply (pieces_hold_forall (fun p t => escapes_next p t = false)),
      split_colon_delimiters_unescaped.
Qed.

Lemma components_of_platform_identifier_witness :
  let fields := ["a"; "\$0.99_kindle_bo\:oks_project"; "\$0.99_kindle_books";
                 "6"; "*"; "*"; "*"; "*"; "android"; "*"; "\\"] in
  components
    "cpe:2.3:a:\$0.99_kindle_bo\:oks_project:\$0.99_kindle_books:6:*:*:*:*:android:*:\\"
  = fields
  /\ length (components (bind_fields fields)) = 11.
Proof.
  intros fields.
  destruct (components_of_platform_identifier fields eq_refl eq_refl)
    as (Hiff & Hlen & _).
  split; [exact (proj1 Hiff eq_refl)|exact (Hlen eq_refl)].
Defined.

(** C5, as stated, fails: the identifier binds 11 field values, the
    vendor ending in an escaped backslash, and the split takes the colon
    behind the vendor for an escaped one and gives 10 tokens. *)
Lemma components_of_platform_identifier_counterexample :
  platform_identifier "cpe:2.3:a:ven\\:prod:1:*:*:*:*:*:*:*"
  /\ components "cpe:2.3:a:ven\\:prod:1:*:*:*:*:*:*:*"
     = ["a"; "ven\\:prod"; "1"; "*"; "*"; "*"; "*"; "*"; "*"; "*"].
Proof.
  split; [|reflexivity].
  exists ["a"; "ven\\"; "prod"; "1"; "*"; "*"; "*"; "*"; "*"; "*"; "*"].
  repeat split; reflexivity.
Qed.

(** ** Unbinding *)

Lemma unescaped_dot_is_dot prev c :
  Str.unescaped_dot prev c = true -> c = Str.dot.
Proof.
  unfold Str.unescaped_dot. intros H.
  apply andb_true_iff in H as [H _]. now apply Ascii.eqb_eq.
Qed.

(** Cut a token at its unescaped dots: the rewriting puts an escaped dot
    where each cut was and leaves the pieces as they are. *)
Lemma escape_dots_join s :
  forall prev,
    escape_dots prev s
    = Str.join "\." (Str.split_where Str.unescaped_dot prev s).
Proof.
  induction s as [|c s IH]; intros prev; [reflexivity|].
  simpl. destruct (Str.unescaped_dot prev c) eqn:E.
  - rewrite join_cons by apply split_where_not_nil.
    rewrite IH. apply unescaped_dot_is_dot in E. now subst c.
  - rewrite join_push by apply split_where_not_nil. now rewrite IH.
Qed.

Lemma unbinding_nth (tokens : list string) (i : nat) :
  nth_error (unbinding tokens) i = option_map unbind_token (nth_error tokens i).
Proof. unfold unbinding. apply nth_error_map. Qed.

Lemma unbinding_length (tokens : list string) :
  length (unbinding tokens) = length tokens.
Proof. unfold unbinding. apply length_map. Qed.

(** C4: unbinding keeps the number and the order of the tokens and maps
    each token on its own: a star becomes ANY, a dash becomes NA, and any
    other token, cut at its unescaped dots, comes back with an escaped dot
    at each cut and with every piece unchanged. *)
Theorem unbinding_normalizes (tokens : list string) :
  length (unbinding tokens) = length tokens
  /\ (forall i, nth_error (unbinding tokens) i
                = option_map unbind_token (nth_error tokens i))
  /\ unbind_token "*" = "ANY"
  /\ unbind_token "-" = "NA"
  /\ (forall t, t <> "*" -> t <> "-" ->
        let pieces := Str.split_where Str.unescaped_dot None t in
        Str.join "." pieces = t /\ unbind_token t = Str.join "\." pieces)
  /\ unbind_token "0.7" = "0\.7"
  /\ unbind_token "\$0.99" = "\$0\.99".
Proof.
  split; [apply unbinding_length|].
  split; [apply unbinding_nth|].
  repeat split; try reflexivity.
  - apply join_split_where. apply unescaped_dot_is_dot.
  - unfold unbind_token.
    destruct (String.eqb_spec t "*"); [contradiction|].
    destruct (String.eqb_spec t "-"); [contradiction|].
    apply escape_dots_join.
Qed.

Lemma unbinding_normalizes_witness :
  unbinding ["a"; "*"; "-"; "1.2.5"; "\$0.99_kindle\.books"]
  = ["a"; "ANY"; "NA"; "1\.2\.5"; "\$0\.99_kindle\.books"]
  /\ unbind_token "1.2.5" = Str.join "\." ["1"; "2"; "5"].
Proof.
  split; [reflexivity|].
  destruct (unbinding_normalizes []) as (_ & _ & _ & _ & H & _).
  apply (H "1.2.5"); discriminate.
Defined.

(** ** The dictionary table *)

Lemma cpe_loop_map (cpe_list : list string) :
  forall table,
    cpe_loop cpe_list table
    = table ++ map (fun cpe => cpe :: unbinding (components cpe)) cpe_list.
Proof.
  induction cpe_list as [|cpe rest IH]; intros table; simpl.
  - now rewrite app_nil_r.
  - now rewrite IH, <- app_assoc.
Qed.

(** The unbound components of a cleanly delimited binding are the unbound
    fields. *)
Lemma bound_fields_unbound (fields : list string) :
  length fields = 11 ->
  forallb field_value fields = true ->
  cleanly_delimited fields = true ->
  unbinding (components (bind_fields fields)) = unbinding fields
  /\ length (unbinding fields) = 11.
Proof.
  intros Hlen Hall Hclean.
  rewrite bind_fields_components; [|now destruct fields|assumption|assumption].
  split; [reflexivity|]. now rewrite unbinding_length.
Qed.

(** C6, as the code has it: the dictionary table has one row per input
    string, in the order of the input; a row is the string itself,
    unchanged, followed by the normalized pieces of its split behind the two
    prefix tokens; for an identifier that binds 11 field values of which
    none but the last ends in a backslash these are its 11 normalized
    fields; nothing else is in the row. *)
Theorem setup_cpe_table_rows (cpe_list : list string) :
  length (setup_cpe_table cpe_list) = length cpe_list
  /\ forall i cpe,
       nth_error cpe_list i = Some cpe ->
       nth_error (setup_cpe_table cpe_list) i
       = Some (cpe :: unbinding (components cpe))
       /\ forall fields,
            length fields = 11 ->
            forallb field_value fields = true ->
            cleanly_delimited fields = true ->
            cpe = bind_fields fields ->
            nth_error (setup_cpe_table cpe_list) i
            = Some (cpe :: unbinding fields)
            /\ length (unbinding fields) = 11.
Proof.
  unfold setup_cpe_table. rewrite cpe_loop_map. cbn [app].
  split; [apply length_map|].
  intros i cpe Hi. split.
  - now rewrite nth_error_map, Hi.
  - intros fields Hlen Hall Hclean Hcpe.
    destruct (bound_fields_unbound fields Hlen Hall Hclean) as [Hfields Hwidth].
    split; [|exact Hwidth].
    rewrite nth_error_map, Hi. cbn [option_map].
    rewrite Hcpe at 2. now rewrite Hfields.
Qed.

Lemma setup_cpe_table_rows_witness :
  nth_error
    (setup_cpe_table
       ["cpe:2.3:a:1000guess:1000_guess:-:*:*:*:*:*:*:*";
        "cpe:2.3:a:\$0.99_kindle_bo\:oks_project:\$0.99_kindle_books:6:*:*:*:*:android:*:*"])
    1
  = Some ["cpe:2.3:a:\$0.99_kindle_bo\:oks_project:\$0.99_kindle_books:6:*:*:*:*:android:*:*";
          "a"; "\$0\.99_kindle_bo\:oks_project"; "\$0\.99_kindle_books"; "6";
          "ANY"; "ANY"; "ANY"; "ANY"; "android"; "ANY"; "ANY"].
Proof.
  exact (proj1
           (proj2 (proj2 (setup_cpe_table_rows
                            ["cpe:2.3:a:1000guess:1000_guess:-:*:*:*:*:*:*:*";
                             "cpe:2.3:a:\$0.99_kindle_bo\:oks_project:\$0.99_kindle_books:6:*:*:*:*:android:*:*"])
                         1 _ eq_refl)
                  ["a"; "\$0.99_kindle_bo\:oks_project"; "\$0.99_kindle_books";
                   "6"; "*"; "*"; "*"; "*"; "android"; "*"; "*"]
                  eq_refl eq_refl eq_refl eq_refl)).
Defined.

(** C6, as stated, fails: the identifier binds 11 field values, the
    vendor ending in an escaped backslash, and its row has 10 columns behind
    the identifier, vendor and product in one. *)
Lemma setup_cpe_table_rows_counterexample :
  platform_identifier "cpe:2.3:a:ven\\:prod:1:*:*:*:*:*:*:*"
  /\ setup_cpe_table ["cpe:2.3:a:ven\\:prod:1:*:*:*:*:*:*:*"]
     = [["cpe:2.3:a:ven\\:prod:1:*:*:*:*:*:*:*";
         "a"; "ven\\:prod"; "1";
         "ANY"; "ANY"; "ANY"; "ANY"; "ANY"; "ANY"; "ANY"]].
Proof.
  split; [|reflexivity].
  exists ["a"; "ven\\"; "prod"; "1"; "*"; "*"; "*"; "*"; "*"; "*"; "*"].
  repeat split; reflexivity.
Qed.

(** ** The vulnerability table *)

Lemma digit_not_dash (d : ascii) :
  Str.is_digit d = true -> Ascii.eqb d Str.dash = false.
Proof.
  intros H. destruct (Ascii.eqb_spec d Str.dash) as [->|]; [|reflexivity].
  discriminate H.
Qed.

(** The year of an id-shaped token: the four digits behind [CVE-]. *)
Lemma year_of_cve_id (s : string) :
  Str.is_cve_id s = true ->
  nth_error (Str.split Str.dash s) 1 = Some (substring 4 4 s).
Proof.
  destruct s as [|c0 [|c1 [|c2 [|c3 [|d0 [|d1 [|d2 [|d3 [|c8 [|d4 s]]]]]]]]]];
    try discriminate.
  unfold Str.is_cve_id. intros H.
  repeat (apply andb_true_iff in H as [H ?]).
  repeat match goal with
         | E : Ascii.eqb _ _ = true |- _ => apply Ascii.eqb_eq in E; subst
         | E : Str.is_digit _ = true |- _ => apply digit_not_dash in E
         end.
  unfold Str.split. cbn [Str.split_where].
  repeat match goal with
         | E : Ascii.eqb _ Str.dash = false |- _ => rewrite E; clear E
         end.
  cbn. reflexivity.
Qed.

Lemma subscript_year (id : string) :
  Str.is_cve_id id = true ->
  subscript (Str.split Str.dash id) 1 = Returned (year_field id).
Proof.
  intros H. unfold subscript, year_field.
  pose proof (year_of_cve_id id H) as Hy.
  rewrite Hy. now rewrite (nth_error_nth _ _ _ Hy).
Qed.

(** Started under an id, the first loop never fails, and it builds the
    rows of the specification. *)
Lemma cve_loop_rows (cve_list : list string) :
  forall id table,
    Str.is_cve_id id = true ->
    cve_loop cve_list (CveState id [] table)
    = Returned (CveState (current_id id cve_list) []
                         (table ++ spec_rows id cve_list)).
Proof.
  induction cve_list as [|t rest IH]; intros id table Hid.
  - simpl. now rewrite app_nil_r.
  - cbn [cve_loop spec_rows current_id ident cur_row cve_table].
    destruct (Str.is_cve_id t) eqn:Et.
    + now apply IH.
    + rewrite (subscript_year id Hid). cbn.
      rewrite (IH id _ Hid). now rewrite <- app_assoc.
Qed.

Lemma cve_loop_opening (cve_list : list string) :
  opens_with_id cve_list = true ->
  cve_loop cve_list (CveState "" [] [])
  = Returned (CveState (current_id "" cve_list) [] (spec_rows "" cve_list)).
Proof.
  destruct cve_list as [|t rest]; intros H; [reflexivity|].
  simpl in H. cbn [cve_loop spec_rows current_id ident cur_row cve_table].
  rewrite H. now rewrite cve_loop_rows.
Qed.

(** The second loop never fails. *)
Lemma summary_loop_returns (summary_list : list string) :
  forall r table, exists table', summary_loop summary_list r table = Returned table'.
Proof.
  induction summary_list as [|t rest IH]; intros r table; simpl.
  - now exists table.
  - destruct (Str.is_cve_id t) eqn:Et.
    + rewrite (subscript_year t Et). cbn. apply IH.
    + apply IH.
Qed.

Lemma spec_rows_length (tokens : list string) :
  forall id, length (spec_rows id tokens) = length (identifier_tokens tokens).
Proof.
  unfold identifier_tokens, is_identifier_token.
  induction tokens as [|t rest IH]; intros id; simpl; [reflexivity|].
  destruct (Str.is_cve_id t); simpl; now rewrite IH.
Qed.

Lemma spec_rows_app (l1 l2 : list string) :
  forall id,
    spec_rows id (l1 ++ l2)
    = spec_rows id l1 ++ spec_rows (current_id id l1) l2.
Proof.
  induction l1 as [|t rest IH]; intros id; simpl; [reflexivity|].
  destruct (Str.is_cve_id t); simpl; now rewrite IH.
Qed.

Lemma current_id_identifiers (mid : list string) :
  forall id, forallb is_identifier_token mid = true -> current_id id mid = id.
Proof.
  unfold is_identifier_token.
  induction mid as [|t rest IH]; intros id H; simpl in *; [reflexivity|].
  apply andb_true_iff in H as [Ht Hrest]. apply negb_true_iff in Ht.
  rewrite Ht. now apply IH.
Qed.

(** The row of an identifier token carries the id seen last before it. *)
Lemma spec_rows_nth (pre mid post : list string) (id t current : string) :
  Str.is_cve_id id = true ->
  forallb is_identifier_token mid = true ->
  is_identifier_token t = true ->
  nth_error (spec_rows current (pre ++ id :: mid ++ t :: post))
            (length (identifier_tokens (pre ++ mid)))
  = Some (id :: year_field id :: t :: unbinding (components t)).
Proof.
  intros Hid Hmid Ht.
  rewrite spec_rows_app. cbn [spec_rows]. rewrite Hid.
  rewrite spec_rows_app, (current_id_identifiers mid id Hmid).
  cbn [spec_rows]. unfold is_identifier_token in Ht.
  apply negb_true_iff in Ht. rewrite Ht.
  unfold identifier_tokens. rewrite filter_app, length_app.
  fold (identifier_tokens pre). fold (identifier_tokens mid).
  rewrite <- (spec_rows_length pre current), <- (spec_rows_length mid id).
  rewrite nth_error_app2 by lia.
  replace (_ + _ - _) with (length (spec_rows id mid)) by lia.
  rewrite nth_error_app2 by lia.
  now rewrite Nat.sub_diag.
Qed.

(** C3, as the code has it: on a token sequence that is empty or opens
    with an id token, [setup_cve_table] returns a table with one row per
    token that is not id-shaped and none for the id tokens; the row of an
    identifier token is the id seen last before it, the second
    dash-separated field of that id, the token itself and the normalized
    pieces of its split behind the two prefix tokens, which are its 11
    normalized fields when the token binds 11 field values of which none but
    the last ends in a backslash.  The sequence of the specification's
    example gives the one row stated there. *)
Theorem setup_cve_table_rows (cve_list summary_list : list string) :
  opens_with_id cve_list = true ->
  exists table summary_table,
    setup_cve_table cve_list summary_list = Returned (table, summary_table)
    /\ length table = length (identifier_tokens cve_list)
    /\ (forall pre id mid t post,
           cve_list = pre ++ id :: mid ++ t :: post ->
           Str.is_cve_id id = true ->
           forallb is_identifier_token mid = true ->
           is_identifier_token t = true ->
           nth_error table (length (identifier_tokens (pre ++ mid)))
           = Some (id :: year_field id :: t :: unbinding (components t))
           /\ (forall fields,
                  length fields = 11 ->
                  forallb field_value fields = true ->
                  cleanly_delimited fields = true ->
                  t = bind_fields fields ->
                  unbinding (components t) = unbinding fields
                  /\ length (unbinding fields) = 11))
    /\ setup_cve_table
         ["CVE-2012-0001"; "cpe:2.3:a:1000guess:1000_guess:-:*:*:*:*:*:*:*"] []
       = Returned
           ([["CVE-2012-0001"; "2012";
              "cpe:2.3:a:1000guess:1000_guess:-:*:*:*:*:*:*:*";
              "a"; "1000guess"; "1000_guess"; "NA";
              "ANY"; "ANY"; "ANY"; "ANY"; "ANY"; "ANY"; "ANY"]], []).
Proof.
  intros Hopen.
  assert (Hsum : exists summary_table,
             (if is_empty summary_list then ret []
              else summary_loop summary_list [] [])
             = Returned summary_table).
  { destruct (is_empty summary_list);
      [now exists []|apply summary_loop_returns]. }
  destruct Hsum as [summary_table Hsum].
  exists (spec_rows "" cve_list), summary_table.
  split; [|split; [|split]].
  - unfold setup_cve_table. rewrite (cve_loop_opening _ Hopen).
    cbn [bind Monad_outcome Monad_either Returned cur_row cve_table].
    cbn [cur_row] in *. rewrite Hsum. reflexivity.
  - apply spec_rows_length.
  - intros pre id mid t post -> Hid Hmid Ht. split.
    + now apply spec_rows_nth.
    + intros fields Hlen Hall Hclean ->.
      now apply bound_fields_unbound.
  - vm_compute. reflexivity.
Qed.

Lemma setup_cve_table_rows_witness :
  exists table summary_table,
    setup_cve_table TestData.CVE_LIST TestData.SUMMARY_LIST
    = Returned (table, summary_table)
    /\ length table = 5
    /\ nth_error table 0
       = Some ["CVE-2012-0001"; "2012";
               "cpe:2.3:a:\$0.99_kindle_bo\:oks_project:\$0.99_kindle_books:6:*:*:*:*:android:*:*";
               "a"; "\$0\.99_kindle_bo\:oks_project"; "\$0\.99_kindle_books";
               "6"; "ANY"; "ANY"; "ANY"; "ANY"; "android"; "ANY"; "ANY"]
    /\ nth_error table 4
       = Some ["CVE-2012-0002"; "2012";
               "cpe:2.3:a:1024cms:1024_cms:1.3.1:*:*:*:*:*:*:*";
               "a"; "1024cms"; "1024_cms"; "1\.3\.1";
               "ANY"; "ANY"; "ANY"; "ANY"; "ANY"; "ANY"; "ANY"].
Proof.
  destruct (setup_cve_table_rows TestData.CVE_LIST TestData.SUMMARY_LIST
                                 eq_refl)
    as (table & summary_table & Hrun & Hlen & Hrows & _).
  exists table, summary_table.
  split; [exact Hrun|]. split; [exact Hlen|]. split.
  - destruct (Hrows [] "CVE-2012-0001" []
                    "cpe:2.3:a:\$0.99_kindle_bo\:oks_project:\$0.99_kindle_books:6:*:*:*:*:android:*:*"
                    (skipn 2 TestData.CVE_LIST)
                    eq_refl eq_refl eq_refl eq_refl) as [Hrow Hfields].
    destruct (Hfields
                ["a"; "\$0.99_kindle_bo\:oks_project"; "\$0.99_kindle_books";
                 "6"; "*"; "*"; "*"; "*"; "android"; "*"; "*"]
                eq_refl eq_refl eq_refl eq_refl) as [Heq _].
    cbn [app length identifier_tokens filter] in Hrow.
    rewrite Hrow, Heq. reflexivity.
  - exact (proj1 (Hrows (firstn 5 TestData.CVE_LIST) "CVE-2012-0002" []
                        "cpe:2.3:a:1024cms:1024_cms:1.3.1:*:*:*:*:*:*:*" []
                        eq_refl eq_refl eq_refl eq_refl)).
Defined.

(** C3, as stated, fails twice.  On a sequence whose first token is no
    id, the sequence has an identifier token and yet no table is returned.
    And the row of an identifier that binds 11 field values, the vendor
    ending in an escaped backslash, has 10 normalized fields, vendor and
    product in one. *)
Lemma setup_cve_table_rows_counterexample :
  (identifier_tokens
     ["cpe:2.3:a:1024cms:1024_cms:0.7:*:*:*:*:*:*:*"; "CVE-2012-0001"]
   = ["cpe:2.3:a:1024cms:1024_cms:0.7:*:*:*:*:*:*:*"]
   /\ setup_cve_table
        ["cpe:2.3:a:1024cms:1024_cms:0.7:*:*:*:*:*:*:*"; "CVE-2012-0001"] []
      = Raised IndexError)
  /\ (platform_identifier "cpe:2.3:a:ven\\:prod:1:*:*:*:*:*:*:*"
      /\ setup_cve_table
           ["CVE-2012-0001"; "cpe:2.3:a:ven\\:prod:1:*:*:*:*:*:*:*"] []
         = Returned
             ([["CVE-2012-0001"; "2012";
                "cpe:2.3:a:ven\\:prod:1:*:*:*:*:*:*:*";
                "a"; "ven\\:prod"; "1";
                "ANY"; "ANY"; "ANY"; "ANY"; "ANY"; "ANY"; "ANY"]], [])).
Proof.
  split; [split; reflexivity|].
  split; [|reflexivity].
  exists ["a"; "ven\\"; "prod"; "1"; "*"; "*"; "*"; "*"; "*"; "*"; "*"].
  repeat split; reflexivity.
Qed.

(** ** An identifier token before any id *)

(** C9, as the code has it: when the first token is not id-shaped, the
    loop takes the initial empty id for it, finds no second dash-separated
    field in it, and the call ends in [IndexError]: no row and no table is
    returned, whatever follows. *)
Theorem setup_cve_table_without_id (t : string) (rest summary_list : list string) :
  Str.is_cve_id t = false ->
  Str.split Str.dash "" = [""]
  /\ setup_cve_table (t :: rest) summary_list = Raised IndexError.
Proof.
  intros Ht. split; [reflexivity|].
  unfold setup_cve_table. cbn [cve_loop]. rewrite Ht. reflexivity.
Qed.

Lemma setup_cve_table_without_id_witness :
  setup_cve_table
    ["cpe:2.3:a:1000guess:1000_guess:-:*:*:*:*:*:*:*"; "CVE-2012-0001";
     "cpe:2.3:a:1024cms:1024_cms:0.7:*:*:*:*:*:*:*"]
    ["CVE-2018-8825"; "Buffer Overflow."]
  = Raised IndexError.
Proof.
  exact (proj2 (setup_cve_table_without_id
                  "cpe:2.3:a:1000guess:1000_guess:-:*:*:*:*:*:*:*"
                  ["CVE-2012-0001"; "cpe:2.3:a:1024cms:1024_cms:0.7:*:*:*:*:*:*:*"]
                  ["CVE-2018-8825"; "Buffer Overflow."] eq_refl)).
Defined.

(** C9, as stated, fails: no row is emitted for the token. *)
Lemma setup_cve_table_without_id_counterexample :
  setup_cve_table ["cpe:2.3:a:1000guess:1000_guess:-:*:*:*:*:*:*:*"] []
  = Raised IndexError.
Proof. reflexivity. Qed.

(** ** The feed extraction *)

(** One item whose fields can all be read: the loop body hands the item to
    the channels of the specification. *)
Lemma extract_item_channels (rt : runtime) (v : vulnerability)
      (cve_list summary_list : list string) :
  extract_item rt (feed_item v) (cve_list, summary_list)
  = Returned (cve_list ++ spec_matched_channel rt v,
              summary_list ++ spec_summary_channel v).
Proof.
  destruct v as [id desc nodes].
  unfold extract_item, spec_matched_channel, spec_summary_channel,
    Str.startswith, feed_item.
  cbn [item_id item_summary item_nodes vuln_id description match_nodes
       bind Monad_outcome Monad_either Returned].
  destruct nodes as [|n ns]; cbn [is_empty andb negb].
  - destruct (prefix reject_marker desc); cbn [negb];
      now rewrite ?app_nil_r.
  - now rewrite app_nil_r.
Qed.

Lemma extract_items_channels (rt : runtime) (vs : list vulnerability) :
  forall cve_list summary_list,
    extract_items rt (map feed_item vs) (cve_list, summary_list)
    = Returned (cve_list ++ flat_map (spec_matched_channel rt) vs,
                summary_list ++ flat_map spec_summary_channel vs).
Proof.
  induction vs as [|v vs IH]; intros cve_list summary_list.
  - simpl. now rewrite !app_nil_r.
  - cbn [map extract_items flat_map]. rewrite extract_item_channels.
    cbn [bind Monad_outcome Monad_either Returned].
    change (@inr exn (list string * list string)) with
      (@Returned (list string * list string)) in IH.
    now rewrite IH, !app_assoc.
Qed.

(** C2: on a feed whose items can all be read, [extract_cve] returns the
    shares of the items, side by side in the two outputs.  An item with a
    node list that is not empty gives its id to the matched output and
    nothing to the summaries; an item with an empty node list and no
    rejection mark gives its id and description to the summaries and
    nothing to the matched output; an item gives nothing to either exactly
    when its node list is empty and its description starts with the
    rejection mark. *)
Theorem extract_cve_channels (rt : runtime) (file text : string)
        (vs : list vulnerability) :
  open_file rt file = Content text ->
  json_load rt text = Some (Feed (Some (map feed_item vs))) ->
  extract_cve rt file
  = Returned (flat_map (spec_matched_channel rt) vs,
              flat_map spec_summary_channel vs)
  /\ forall v,
       (match_nodes v <> [] ->
        hd_error (spec_matched_channel rt v) = Some (vuln_id v)
        /\ spec_summary_channel v = [])
       /\ (match_nodes v = [] ->
           Str.startswith (description v) reject_marker = false ->
           spec_matched_channel rt v = []
           /\ spec_summary_channel v = [vuln_id v; description v])
       /\ (spec_matched_channel rt v = [] /\ spec_summary_channel v = []
           <-> match_nodes v = []
               /\ Str.startswith (description v) reject_marker = true).
Proof.
  intros Hopen Hload. split.
  - unfold extract_cve, extract_cve_body. rewrite Hopen, Hload.
    cbn [CVE_Items item bind ret Monad_outcome Monad_either].
    rewrite extract_items_channels. reflexivity.
  - intros [id desc nodes].
    unfold spec_matched_channel, spec_summary_channel, Str.startswith.
    cbn [vuln_id description match_nodes].
    destruct nodes as [|n ns].
    + destruct (prefix reject_marker desc); repeat split;
        intros; try tauto; try discriminate; try easy.
    + repeat split; intros; try discriminate; try easy.
Qed.

Lemma extract_cve_channels_witness :
  extract_cve TestData.RUNTIME "nvdcve-1.0-2012.json"
  = Returned ("CVE-2012-0010" :: TestData.NODE_LIST,
              ["CVE-2018-8825";
               "Google TensorFlow 1.7 and below is affected by: Buffer Overflow."]).
Proof.
  exact (proj1 (extract_cve_channels TestData.RUNTIME "nvdcve-1.0-2012.json"
                  "feed" TestData.VULNERABILITIES eq_refl eq_refl)).
Defined.

(** A listing of a set holds each identifier of the walk once. *)
Lemma matched_channel_deduplicated (rt : runtime) (v : vulnerability) :
  set_listing (list_of_set rt) ->
  match_nodes v <> [] ->
  exists ids,
    spec_matched_channel rt v = vuln_id v :: ids
    /\ NoDup ids
    /\ forall x, In x ids <-> In x (iterate_nodes (match_nodes v) []).
Proof.
  intros Hset Hne. unfold spec_matched_channel.
  destruct (match_nodes v) as [|n ns] eqn:E; [contradiction|].
  eexists. split; [reflexivity|]. apply Hset.
Qed.

(** ** Failures *)

Lemma readable_item_returns (rt : runtime) (it : vuln_item) lists :
  readable_item it = true ->
  exists lists', extract_item rt it lists = Returned lists'.
Proof.
  destruct it as [[e|id] [e'|desc] [e''|nodes]]; try discriminate.
  intros _. destruct lists as [cl sl]. unfold extract_item.
  cbn [item_id item_summary item_nodes bind Monad_outcome Monad_either].
  destruct (is_empty nodes && negb (Str.startswith desc reject_marker));
    [eexists; reflexivity|].
  destruct (negb (is_empty nodes)); eexists; reflexivity.
Qed.

Lemma unreadable_item_raises (rt : runtime) (it : vuln_item) lists :
  readable_item it = false ->
  exists e, extract_item rt it lists = Raised e.
Proof.
  destruct lists as [cl sl].
  destruct it as [[e|id] [e'|desc] [e''|nodes]]; try discriminate;
    intros _; eexists; reflexivity.
Qed.

(** An item that cannot be read ends the loop, however many items before
    it were read, and nothing of what they gave is returned. *)
Lemma extract_items_raises (rt : runtime) (items : list vuln_item) :
  forall lists,
    forallb readable_item items = false ->
    exists e, extract_items rt items lists = Raised e.
Proof.
  induction items as [|it rest IH]; intros lists H; [discriminate|].
  cbn [forallb] in H. cbn [extract_items].
  destruct (readable_item it) eqn:Eit.
  - destruct (readable_item_returns rt it lists Eit) as [lists' ->].
    cbn [bind Monad_outcome Monad_either Returned]. now apply IH.
  - destruct (unreadable_item_raises rt it lists Eit) as [e ->].
    now exists e.
Qed.

(** C8: [extract_cve] returns nothing when the feed is missing, cannot be
    read, is no structured document, lacks its item list or holds an item
    that cannot be read, however late in the list; for a feed whose items
    can all be read it returns both lists in full.  [extract_cpe] returns
    nothing when the markup is malformed or missing. *)
Theorem extraction_aborts_or_completes (rt : runtime) (file : string) :
  (open_file rt file = Absent ->
   extract_cve rt file = Raised AttributeError)
  /\ (open_file rt file = Unreadable ->
      extract_cve rt file = Raised SystemExit)
  /\ (forall text,
         open_file rt file = Content text ->
         json_load rt text = None ->
         extract_cve rt file = Raised JSONDecodeError)
  /\ (forall text,
         open_file rt file = Content text ->
         json_load rt text = Some (Feed None) ->
         extract_cve rt file = Raised KeyError)
  /\ (forall text items,
         open_file rt file = Content text ->
         json_load rt text = Some (Feed (Some items)) ->
         forallb readable_item items = false ->
         exists e, extract_cve rt file = Raised e)
  /\ (forall text vs,
         open_file rt file = Content text ->
         json_load rt text = Some (Feed (Some (map feed_item vs))) ->
         extract_cve rt file
         = Returned (flat_map (spec_matched_channel rt) vs,
                     flat_map spec_summary_channel vs))
  /\ (et_parse rt file = Malformed ->
      extract_cpe rt file = Raised SystemExit)
  /\ (et_parse rt file = NoDocument ->
      extract_cpe rt file = Raised FileNotFoundError).
Proof.
  unfold extract_cve, extract_cve_body, extract_cpe.
  repeat split.
  - intros ->. reflexivity.
  - intros ->. reflexivity.
  - intros text -> ->. reflexivity.
  - intros text -> ->. reflexivity.
  - intros text items -> -> Hbad.
    cbn [CVE_Items item bind ret Monad_outcome Monad_either].
    destruct (extract_items_raises rt items ([], []) Hbad) as [e He].
    rewrite He. destruct e; eexists; reflexivity.
  - intros text vs -> ->.
    cbn [CVE_Items item bind ret Monad_outcome Monad_either].
    rewrite extract_items_channels. reflexivity.
  - intros ->. reflexivity.
  - intros ->. reflexivity.
Qed.

Lemma extraction_aborts_or_completes_witness :
  extract_cve TestData.RUNTIME "nvdcve-1.0-2011.json" = Raised AttributeError
  /\ extract_cve TestData.RUNTIME "locked.json" = Raised SystemExit
  /\ extract_cve TestData.RUNTIME "truncated.json" = Raised JSONDecodeError
  /\ extract_cve TestData.RUNTIME "nvdcve-1.0-2012.json"
     = Returned ("CVE-2012-0010" :: TestData.NODE_LIST,
                 ["CVE-2018-8825";
                  "Google TensorFlow 1.7 and below is affected by: Buffer Overflow."])
  /\ extract_cpe TestData.RUNTIME "truncated.xml" = Raised SystemExit.
Proof.
  split; [|split; [|split; [|split]]].
  - apply (extraction_aborts_or_completes TestData.RUNTIME "nvdcve-1.0-2011.json").
    reflexivity.
  - apply (extraction_aborts_or_completes TestData.RUNTIME "locked.json").
    reflexivity.
  - apply (extraction_aborts_or_completes TestData.RUNTIME "truncated.json")
      with (text := "{"); reflexivity.
  - apply (extraction_aborts_or_completes TestData.RUNTIME "nvdcve-1.0-2012.json")
      with (text := "feed") (vs := TestData.VULNERABILITIES); reflexivity.
  - apply (extraction_aborts_or_completes TestData.RUNTIME "truncated.xml").
    reflexivity.
Defined.

(** ** The dictionary extraction *)

Lemma names_app (l1 l2 : list element) :
  names (l1 ++ l2)
  = match names l1, names l2 with
    | Some a, Some b => Some (a ++ b)
    | _, _ => None
    end.
Proof.
  induction l1 as [|e l1 IH]; simpl.
  - now destruct (names l2).
  - rewrite IH. destruct (lookup "name" (attrib e)); [|reflexivity].
    destruct (names l1); [|reflexivity]. now destruct (names l2).
Qed.

Lemma extract_cpe_items_names (items : list element) :
  forall cpe_list,
    extract_cpe_items items cpe_list
    = returned_names cpe_list (names (filter is_cpe23_item items)).
Proof.
  unfold returned_names.
  induction items as [|it rest IH]; intros cpe_list; simpl.
  - now rewrite app_nil_r.
  - unfold is_cpe23_item at 1.
    destruct (Str.contains "cpe23-item" (tag it)); [|apply IH].
    simpl. destruct (lookup "name" (attrib it)) as [n|]; [|reflexivity].
    cbn [item bind ret Monad_outcome Monad_either]. rewrite IH.
    destruct (names (filter is_cpe23_item rest)); [|reflexivity].
    now rewrite <- app_assoc.
Qed.

Lemma extract_cpe_entries_names (entries : list element) :
  forall cpe_list,
    extract_cpe_entries entries cpe_list
    = returned_names cpe_list
        (names (filter is_cpe23_item (flat_map elems entries))).
Proof.
  unfold returned_names.
  induction entries as [|entry rest IH]; intros cpe_list; simpl.
  - now rewrite app_nil_r.
  - rewrite extract_cpe_items_names, filter_app, names_app.
    unfold returned_names.
    destruct (names (filter is_cpe23_item (elems entry))); [|reflexivity].
    cbn [bind Monad_outcome Monad_either Returned]. rewrite IH.
    destruct (names (filter is_cpe23_item (flat_map elems rest)));
      [|reflexivity].
    now rewrite <- app_assoc.
Qed.

(** C7, as the code has it: [extract_cpe] returns, in document order, the
    [name] attribute of every element two levels below the root whose tag
    contains [cpe23-item], and raises [KeyError] when one of them has no
    such attribute; it looks at no element of any other depth. *)
Theorem extract_cpe_depth_two (rt : runtime) (file : string) (root : element) :
  et_parse rt file = Tree root ->
  extract_cpe rt file
  = match spec_names_at_depth_two root with
    | Some cpe_list => Returned cpe_list
    | None => Raised KeyError
    end.
Proof.
  intros Hparse. unfold extract_cpe. rewrite Hparse.
  rewrite extract_cpe_entries_names. reflexivity.
Qed.

Lemma extract_cpe_depth_two_witness :
  extract_cpe TestData.RUNTIME "official-cpe-dictionary_v2.3.xml"
  = Returned ["cpe:2.3:a:1000guess:1000_guess:-:*:*:*:*:*:*:*"].
Proof.
  exact (extract_cpe_depth_two TestData.RUNTIME
           "official-cpe-dictionary_v2.3.xml" TestData.DICTIONARY eq_refl).
Defined.

(** C7, as stated, fails: the dictionary holds three platform-identifier
    items, and the one right below the root and the one three levels down
    are not returned. *)
Lemma extract_cpe_anywhere_counterexample :
  spec_names_anywhere TestData.DICTIONARY
  = Some ["cpe:2.3:a:1000guess:1000_guess:-:*:*:*:*:*:*:*";
          "cpe:2.3:a:1024cms:1024_cms:0.7:*:*:*:*:*:*:*";
          "cpe:2.3:a:1024cms:1024_cms:1.2.5:*:*:*:*:*:*:*"]
  /\ extract_cpe TestData.RUNTIME "official-cpe-dictionary_v2.3.xml"
     = Returned ["cpe:2.3:a:1000guess:1000_guess:-:*:*:*:*:*:*:*"].
Proof. split; reflexivity. Qed.

(** * Further properties of the code *)

(** ** The walker on arbitrary nodes *)

Lemma iterate_node_from_empty (n : node) :
  forall acc, iterate_node n acc = acc ++ iterate_node n [].
Proof.
  induction n using node_nested_ind with
    (Q := fun ns => forall acc, iterate_nodes ns acc = acc ++ iterate_nodes ns []).
  - intros acc. destruct cm as [ms|]; simpl.
    + now rewrite !append_vulnerable_filter.
    + now rewrite app_nil_r.
  - intros acc. destruct cm as [ms|]; simpl.
    + now rewrite !append_vulnerable_filter.
    + apply IHn.
  - intros acc. simpl. now rewrite app_nil_r.
  - intros acc. rewrite !iterate_nodes_cons.
    rewrite IHn0, (IHn0 (iterate_node n [])), IHn.
    now rewrite app_assoc.
Qed.

Lemma iterate_nodes_from_empty (nodes : list node) :
  forall acc, iterate_nodes nodes acc = acc ++ iterate_nodes nodes [].
Proof.
  induction nodes as [|n ns IH]; intros acc.
  - simpl. now rewrite app_nil_r.
  - rewrite !iterate_nodes_cons, IH, (IH (iterate_node n [])).
    rewrite (iterate_node_from_empty n acc). now rewrite app_assoc.
Qed.

(** X1: whatever the nodes are (also nodes that carry both keys), the
    walk leaves the entries it was given in place and in order and puts
    behind them exactly what a walk from an empty list collects; so the
    walk of a concatenation is the concatenation of the walks. *)
Theorem iterate_nodes_extends_accumulator (nodes more : list node)
        (acc : list string) :
  iterate_nodes nodes acc = acc ++ iterate_nodes nodes []
  /\ iterate_nodes (nodes ++ more) acc
     = acc ++ iterate_nodes nodes [] ++ iterate_nodes more [].
Proof.
  split; [apply iterate_nodes_from_empty|].
  rewrite iterate_nodes_app, (iterate_nodes_from_empty more),
    (iterate_nodes_from_empty nodes acc).
  now rewrite app_assoc.
Qed.

Lemma iterate_node_sound (n : node) :
  forall x, In x (iterate_node n [])
            -> In x (map cpe23Uri (filter vulnerable (spec_leaves n))).
Proof.
  induction n using node_nested_ind with
    (Q := fun ns =>
            forall x, In x (iterate_nodes ns [])
                      -> In x (map cpe23Uri
                                   (filter vulnerable (flat_map spec_leaves ns)))).
  - intros x. destruct cm as [ms|]; simpl; [|tauto].
    now rewrite append_vulnerable_filter, app_nil_r.
  - intros x. destruct cm as [ms|]; simpl.
    + rewrite append_vulnerable_filter, filter_app, map_app, !in_app_iff.
      simpl. tauto.
    + apply IHn.
  - intros x H. exact H.
  - intros x. rewrite iterate_nodes_cons, iterate_nodes_from_empty.
    cbn [flat_map]. rewrite filter_app, map_app, !in_app_iff.
    intros [H|H]; [left; now apply IHn|right; now apply IHn0].
Qed.

(** X2: whatever the nodes are, every identifier the walk collects is the
    identifier of a leaf of the tree that is flagged vulnerable; the walk
    collects nothing from a tree without such a leaf. *)
Theorem iterate_nodes_collects_only_vulnerable (nodes : list node) :
  (forall x, In x (iterate_nodes nodes []) -> In x (spec_vulnerable_ids nodes))
  /\ (spec_vulnerable_ids nodes = [] -> iterate_nodes nodes [] = []).
Proof.
  assert (H : forall x, In x (iterate_nodes nodes [])
                        -> In x (spec_vulnerable_ids nodes)).
  { unfold spec_vulnerable_ids.
    induction nodes as [|n ns IH]; intros x; [easy|].
    rewrite iterate_nodes_cons, iterate_nodes_from_empty.
    cbn [flat_map]. rewrite filter_app, map_app, !in_app_iff.
    intros [Hx|Hx]; [left; now apply iterate_node_sound|right; now apply IH]. }
  split; [exact H|].
  intros Hnone. destruct (iterate_nodes nodes []) as [|x l]; [reflexivity|].
  specialize (H x (or_introl eq_refl)). rewrite Hnone in H. destruct H.
Qed.

Lemma iterate_nodes_collects_only_vulnerable_witness :
  In "cpe:2.3:a:microsoft:ie:9:*:*:*:*:*:*:*" (spec_vulnerable_ids TestData.NODES)
  /\ iterate_nodes
       [Node "AND" None
             (Some [Node "OR" (Some [CpeMatch false "cpe:2.3:o:d:e:*:*:*:*:*:*:*:*"])
                         None])] [] = [].
Proof.
  split.
  - apply (proj1 (iterate_nodes_collects_only_vulnerable TestData.NODES)).
    vm_compute. tauto.
  - apply (proj2 (iterate_nodes_collects_only_vulnerable
                    [Node "AND" None
                          (Some [Node "OR"
                                      (Some [CpeMatch false
                                               "cpe:2.3:o:d:e:*:*:*:*:*:*:*:*"])
                                      None])])).
    reflexivity.
Defined.

(** ** Deduplication in [extract_cve] *)

(** X3: for an item with a node list that is not empty, and however a set
    is listed, the loop body appends the id and behind it each identifier of
    the walk once, none missing and none that the walk did not collect; the
    summaries stay as they are. *)
Theorem extract_item_deduplicates (rt : runtime) (v : vulnerability)
        (cve_list summary_list : list string) :
  set_listing (list_of_set rt) ->
  match_nodes v <> [] ->
  exists ids,
    extract_item rt (feed_item v) (cve_list, summary_list)
    = Returned (cve_list ++ vuln_id v :: ids, summary_list)
    /\ NoDup ids
    /\ forall x, In x ids <-> In x (iterate_nodes (match_nodes v) []).
Proof.
  intros Hset Hne.
  exists (list_of_set rt (iterate_nodes (match_nodes v) [])).
  split; [|apply Hset].
  rewrite extract_item_channels.
  unfold spec_matched_channel, spec_summary_channel.
  destruct (match_nodes v) as [|n ns]; [contradiction|].
  now rewrite app_nil_r.
Qed.

Lemma first_occurrences_listing :
  set_listing (fun l => rev (nodup string_dec (rev l))).
Proof.
  intros l. split.
  - apply NoDup_rev, NoDup_nodup.
  - intros x. now rewrite <- in_rev, nodup_In, <- in_rev.
Qed.

Lemma extract_item_deduplicates_witness :
  exists ids,
    extract_item TestData.RUNTIME
      (feed_item (Vulnerability "CVE-2012-0010" "" (TestData.NODES ++ TestData.NODES)))
      (["CVE-2012-0001"], [])
    = Returned ("CVE-2012-0001" :: "CVE-2012-0010" :: ids, [])
    /\ NoDup ids.
Proof.
  destruct (extract_item_deduplicates TestData.RUNTIME
              (Vulnerability "CVE-2012-0010" "" (TestData.NODES ++ TestData.NODES))
              ["CVE-2012-0001"] [] first_occurrences_listing)
    as (ids & Hrun & Hnodup & _); [discriminate|].
  exists ids. split; assumption.
Defined.

(** ** Ids and identifiers *)

Lemma cve_id_starts (s : string) :
  Str.is_cve_id s = true -> exists rest, s = String "C" rest.
Proof.
  destruct s as [|c0 [|c1 [|c2 [|c3 [|d0 [|d1 [|d2 [|d3 [|c8 [|d4 s]]]]]]]]]];
    try discriminate.
  unfold Str.is_cve_id. intros H.
  repeat (apply andb_true_iff in H as [H ?]).
  apply Ascii.eqb_eq in H. subst c0. eexists. reflexivity.
Qed.

Lemma platform_identifier_not_id (s : string) :
  platform_identifier s -> Str.is_cve_id s = false.
Proof.
  intros (fields & _ & _ & ->).
  destruct (Str.is_cve_id (bind_fields fields)) eqn:E; [|reflexivity].
  apply cve_id_starts in E as [rest E].
  unfold bind_fields in E. rewrite join_cons in E by discriminate.
  discriminate E.
Qed.

(** X5: in an id-shaped token the year column is the four characters
    behind [CVE-], whatever follows the pattern. *)
Theorem year_of_id_token (id : string) :
  Str.is_cve_id id = true ->
  subscript (Str.split Str.dash id) 1 = Returned (substring 4 4 id)
  /\ String.length (substring 4 4 id) = 4.
Proof.
  intros H. split.
  - unfold subscript. now rewrite (year_of_cve_id id H).
  - destruct id as [|c0 [|c1 [|c2 [|c3 [|d0 [|d1 [|d2 [|d3 [|c8 [|d4 s]]]]]]]]]];
      try discriminate.
    reflexivity.
Qed.

Lemma year_of_id_token_witness :
  subscript (Str.split Str.dash "CVE-2018-1000001 (disputed)") 1 = Returned "2018".
Proof.
  exact (proj1 (year_of_id_token "CVE-2018-1000001 (disputed)" eq_refl)).
Defined.

(** X6: splitting loses nothing: joining the colon pieces of any entry
    with colons, and the dash pieces of any id with dashes, gives the text
    back; a split is never empty. *)
Theorem split_then_join (s : string) :
  Str.join ":" (Str.re_split_colon s) = s
  /\ Str.join "-" (Str.split Str.dash s) = s
  /\ Str.re_split_colon s <> []
  /\ Str.split Str.dash s <> [].
Proof.
  repeat split.
  - apply (join_split_where Str.colon). apply unescaped_colon_is_colon.
  - apply (join_split_where Str.dash). intros _ c H. now apply Ascii.eqb_eq.
  - apply split_where_not_nil.
  - apply split_where_not_nil.
Qed.

(** [sub in s] holds exactly when the text can be cut into a front, [sub]
    and a back. *)
Lemma contains_infix (sub s : string) :
  Str.contains sub s = true
  <-> exists front back, s = (front ++ sub ++ back)%string.
Proof.
  assert (Hpre : forall p t, prefix p t = true
                             <-> exists back, t = (p ++ back)%string).
  { induction p as [|a p IH]; intros t.
    - split; [intros _; now exists t|]. intros _. now destruct t.
    - destruct t as [|b t]; simpl;
        [split; [discriminate|intros [? ?]; discriminate]|].
      destruct (Ascii.ascii_dec a b) as [->|Hab].
      + rewrite IH. split; intros [back H]; exists back.
        * now rewrite H.
        * now injection H.
      + split; [discriminate|]. intros [back H]. injection H as H _.
        now contradiction Hab. }
  induction s as [|c s IH]; cbn [Str.contains].
  - rewrite orb_false_r, Hpre. split.
    + intros [back H]. exists "", back. exact H.
    + intros (front & back & H). destruct front; [|discriminate].
      now exists back.
  - rewrite orb_true_iff, Hpre, IH. split.
    + intros [[back H]|(front & back & H)].
      * exists "", back. exact H.
      * exists (String c front), back. now rewrite H.
    + intros (front & back & H). destruct front as [|a front].
      * left. now exists back.
      * right. injection H as _ H. now exists front, back.
Qed.


(** X7: the inner loop of [extract_cpe] takes an element exactly when
    [cpe23-item] stands somewhere in its tag, as behind a namespace: it
    then appends the [name] attribute, or raises [KeyError] when there is
    none.  Any other element is passed over, with or without a name; what
    is below an element is never looked at. *)
Theorem extract_cpe_items_by_tag (t : string) (attrs : list (string * string))
        (kids : list element) (cpe_list : list string) :
  ((exists front back, t = (front ++ "cpe23-item" ++ back)%string) ->
   extract_cpe_items [Element t attrs kids] cpe_list
   = match lookup "name" attrs with
     | Some name => Returned (cpe_list ++ [name])
     | None => Raised KeyError
     end)
  /\ (~ (exists front back, t = (front ++ "cpe23-item" ++ back)%string) ->
      extract_cpe_items [Element t attrs kids] cpe_list = Returned cpe_list).
Proof.
  cbn [extract_cpe_items tag attrib].
  split; intros H.
  - apply contains_infix in H. rewrite H.
    now destruct (lookup "name" attrs).
  - destruct (Str.contains "cpe23-item" t) eqn:E; [|reflexivity].
    apply contains_infix in E. contradiction.
Qed.

Lemma extract_cpe_items_by_tag_witness :
  extract_cpe_items
    [Element "{http://scap.nist.gov/schema/cpe-extension/2.3}cpe23-item"
             [("name", "cpe:2.3:a:1024cms:1024_cms:0.7:*:*:*:*:*:*:*")]
             [Element "cpe23-item" [] []]]
    []
  = Returned ["cpe:2.3:a:1024cms:1024_cms:0.7:*:*:*:*:*:*:*"].
Proof.
  apply (proj1 (extract_cpe_items_by_tag
                  "{http://scap.nist.gov/schema/cpe-extension/2.3}cpe23-item"
                  [("name", "cpe:2.3:a:1024cms:1024_cms:0.7:*:*:*:*:*:*:*")]
                  [Element "cpe23-item" [] []] [])).
  exists "{http://scap.nist.gov/schema/cpe-extension/2.3}", "". reflexivity.
Defined.

(** ** The first item that cannot be read *)

(** X18: when the items before it can all be read, the first item with a
    field that cannot be read ends [extract_cve]'s loop with the exception
    of that field, the id being fetched before the description and the
    description before the node list; the items behind it play no part. *)
Theorem extract_items_first_failure (rt : runtime) (vs : list vulnerability)
        (bad : vuln_item) (rest : list vuln_item)
        (lists : list string * list string) (e : exn) :
  (item_id bad = inl e
   \/ (exists id, item_id bad = inr id) /\ item_summary bad = inl e
   \/ (exists id, item_id bad = inr id)
      /\ (exists summary, item_summary bad = inr summary)
      /\ item_nodes bad = inl e) ->
  extract_items rt (map feed_item vs ++ bad :: rest) lists = Raised e.
Proof.
  intros Hbad. revert lists.
  induction vs as [|v vs IH]; intros [cl sl].
  - cbn [map app extract_items]. unfold extract_item.
    destruct Hbad as [H|[[[id Hid] H]|[[id Hid] [[s Hs] H]]]];
      rewrite ?Hid, ?Hs, H; reflexivity.
  - cbn [map app extract_items]. rewrite extract_item_channels.
    cbn [bind Monad_outcome Monad_either Returned]. apply IH.
Qed.

Lemma extract_items_first_failure_witness :
  extract_items TestData.RUNTIME
    (map feed_item TestData.VULNERABILITIES
     ++ VulnItem (Returned "CVE-2012-0011") (Raised IndexError) (Raised KeyError)
     :: map feed_item TestData.VULNERABILITIES)
    ([], [])
  = Raised IndexError.
Proof.
  apply (extract_items_first_failure TestData.RUNTIME TestData.VULNERABILITIES).
  right. left. split; [now exists "CVE-2012-0011"|reflexivity].
Defined.

(** ** The tables of a feed *)

Lemma summary_guard (summary_list : list string) (r : row) :
  (if is_empty summary_list then ret [] else summary_loop summary_list r [])
  = summary_loop summary_list r [].
Proof. destruct summary_list; reflexivity. Qed.

(** On a sequence that opens with an id, the call returns the rows of the
    sequence and the table the second loop builds from an empty row. *)
Lemma setup_cve_table_opening (cve_list summary_list : list string) :
  opens_with_id cve_list = true ->
  exists summary_table,
    summary_loop summary_list [] [] = Returned summary_table
    /\ setup_cve_table cve_list summary_list
       = Returned (spec_rows "" cve_list, summary_table).
Proof.
  intros Hopen.
  destruct (summary_loop_returns summary_list [] []) as [u Hu].
  exists u. split; [exact Hu|].
  unfold setup_cve_table. rewrite (cve_loop_opening _ Hopen).
  cbn [bind Monad_outcome Monad_either Returned cur_row cve_table].
  rewrite summary_guard, Hu. reflexivity.
Qed.

Lemma summary_loop_last (summary_list : list string) :
  forall r table,
  exists rows,
    summary_loop summary_list r table = Returned (table ++ rows)
    /\ map (fun r' => last r' "") rows = identifier_tokens summary_list.
Proof.
  unfold identifier_tokens, is_identifier_token.
  induction summary_list as [|t rest IH]; intros r table.
  - exists []. simpl. now rewrite app_nil_r.
  - cbn [summary_loop filter]. destruct (Str.is_cve_id t) eqn:Et.
    + rewrite (subscript_year t Et).
      cbn [bind Monad_outcome Monad_either Returned negb]. apply IH.
    + destruct (IH [] (table ++ [r ++ [t]])) as (rows & Hrun & Hlast).
      exists ((r ++ [t]) :: rows). split.
      * rewrite Hrun. now rewrite <- app_assoc.
      * cbn [negb map]. now rewrite last_last, Hlast.
Qed.

(** X8: on a sequence that opens with an id, the summary table has one
    row per summary token that is not id-shaped, in the order of the
    tokens, and the last column of the row is that token; id tokens with no
    such token behind them leave no row. *)
Theorem summary_rows_follow_descriptions (cve_list summary_list : list string) :
  opens_with_id cve_list = true ->
  exists table summary_table,
    setup_cve_table cve_list summary_list = Returned (table, summary_table)
    /\ map (fun r => last r "") summary_table = identifier_tokens summary_list
    /\ length summary_table = length (identifier_tokens summary_list).
Proof.
  intros Hopen.
  destruct (setup_cve_table_opening cve_list summary_list Hopen)
    as (u & Hu & Hrun).
  destruct (summary_loop_last summary_list [] []) as (rows & Hrows & Hlast).
  rewrite Hu in Hrows. injection Hrows as ->.
  exists (spec_rows "" cve_list), rows.
  split; [exact Hrun|]. split; [exact Hlast|].
  now rewrite <- Hlast, length_map.
Qed.

Lemma summary_rows_follow_descriptions_witness :
  exists table summary_table,
    setup_cve_table ["CVE-2012-0001"]
                    ["CVE-2018-8825"; "CVE-2018-20229"; "Directory Traversal.";
                     "CVE-2018-0010"]
    = Returned (table, summary_table)
    /\ map (fun r => last r "") summary_table = ["Directory Traversal."]
    /\ length summary_table = 1.
Proof.
  exact (summary_rows_follow_descriptions
           ["CVE-2012-0001"]
           ["CVE-2018-8825"; "CVE-2018-20229"; "Directory Traversal.";
            "CVE-2018-0010"] eq_refl).
Defined.

Lemma summary_loop_pairs (pairs : list (string * string)) :
  Forall (fun p => Str.is_cve_id (fst p) = true
                   /\ Str.is_cve_id (snd p) = false) pairs ->
  forall table,
    summary_loop (flat_map (fun p => [fst p; snd p]) pairs) [] table
    = Returned (table
                ++ map (fun p => [fst p; year_field (fst p); snd p]) pairs).
Proof.
  induction 1 as [|[id desc] pairs [Hid Hdesc] _ IH]; intros table.
  - simpl. now rewrite app_nil_r.
  - cbn [flat_map fst snd app summary_loop] in *.
    rewrite Hid, (subscript_year id Hid).
    cbn [bind Monad_outcome Monad_either Returned summary_loop app].
    rewrite Hdesc, IH. cbn [map fst snd app]. now rewrite <- app_assoc.
Qed.

(** X9: when the summary list alternates ids and descriptions, none of
    the descriptions id-shaped, the summary table is one row per pair: the
    id, the year of the id, the description.  The vulnerability table is
    the same whatever the summary list. *)
Theorem summary_rows_of_pairs (cve_list : list string)
        (pairs : list (string * string)) :
  opens_with_id cve_list = true ->
  Forall (fun p => Str.is_cve_id (fst p) = true
                   /\ Str.is_cve_id (snd p) = false) pairs ->
  exists table,
    setup_cve_table cve_list (flat_map (fun p => [fst p; snd p]) pairs)
    = Returned (table,
                map (fun p => [fst p; year_field (fst p); snd p]) pairs)
    /\ forall summary_list,
       exists summary_table,
         setup_cve_table cve_list summary_list
         = Returned (table, summary_table).
Proof.
  intros Hopen Hpairs.
  destruct (setup_cve_table_opening cve_list
              (flat_map (fun p => [fst p; snd p]) pairs) Hopen)
    as (u & Hu & Hrun).
  rewrite (summary_loop_pairs pairs Hpairs []) in Hu. injection Hu as <-.
  exists (spec_rows "" cve_list). split; [exact Hrun|].
  intros summary_list.
  destruct (setup_cve_table_opening cve_list summary_list Hopen)
    as (u' & _ & Hrun').
  now exists u'.
Qed.

Lemma summary_rows_of_pairs_witness :
  exists table,
    setup_cve_table TestData.CVE_LIST TestData.SUMMARY_LIST
    = Returned (table, TestData.SUMMARY_TABLE).
Proof.
  destruct (summary_rows_of_pairs TestData.CVE_LIST
              [(nth 0 TestData.SUMMARY_LIST "", nth 1 TestData.SUMMARY_LIST "");
               (nth 2 TestData.SUMMARY_LIST "", nth 3 TestData.SUMMARY_LIST "")]
              eq_refl)
    as (table & Hrun & _).
  - repeat constructor.
  - exists table. exact Hrun.
Defined.

(** ** Sequences put together *)

Lemma spec_rows_opening (tokens : list string) (current : string) :
  opens_with_id tokens = true ->
  spec_rows current tokens = spec_rows "" tokens.
Proof.
  destruct tokens as [|t rest]; [reflexivity|].
  simpl. now intros ->.
Qed.

Lemma opens_with_id_app (l1 l2 : list string) :
  opens_with_id l1 = true -> opens_with_id l2 = true ->
  opens_with_id (l1 ++ l2) = true.
Proof. destruct l1; simpl; auto. Qed.

(** X10: the table of two sequences put one behind the other, each
    opening with an id, is the table of the first followed by the table of
    the second: the id in force at the end of the first does not reach
    into the second. *)
Theorem setup_cve_table_of_concatenation (l1 l2 summary_list : list string) :
  opens_with_id l1 = true ->
  opens_with_id l2 = true ->
  exists t1 t2 summary_table,
    setup_cve_table l1 summary_list = Returned (t1, summary_table)
    /\ setup_cve_table l2 summary_list = Returned (t2, summary_table)
    /\ setup_cve_table (l1 ++ l2) summary_list
       = Returned (t1 ++ t2, summary_table).
Proof.
  intros H1 H2.
  destruct (setup_cve_table_opening l1 summary_list H1) as (u1 & Hu1 & Hr1).
  destruct (setup_cve_table_opening l2 summary_list H2) as (u2 & Hu2 & Hr2).
  destruct (setup_cve_table_opening (l1 ++ l2) summary_list
              (opens_with_id_app l1 l2 H1 H2)) as (u & Hu & Hr).
  rewrite Hu1 in Hu2, Hu. injection Hu2 as <-. injection Hu as <-.
  exists (spec_rows "" l1), (spec_rows "" l2), u1.
  split; [exact Hr1|]. split; [exact Hr2|].
  rewrite Hr, spec_rows_app.
  now rewrite (spec_rows_opening l2 _ H2).
Qed.

Lemma setup_cve_table_of_concatenation_witness :
  exists t1 t2 summary_table,
    setup_cve_table (firstn 5 TestData.CVE_LIST) [] = Returned (t1, summary_table)
    /\ setup_cve_table (skipn 5 TestData.CVE_LIST) [] = Returned (t2, summary_table)
    /\ setup_cve_table (firstn 5 TestData.CVE_LIST ++ skipn 5 TestData.CVE_LIST) []
       = Returned (t1 ++ t2, summary_table).
Proof.
  exact (setup_cve_table_of_concatenation
           (firstn 5 TestData.CVE_LIST) (skipn 5 TestData.CVE_LIST) []
           eq_refl eq_refl).
Defined.

(** X11: [setup_cpe_table] takes any list of strings without failing: the
    table of a concatenation is the concatenation of the tables, and an
    entry that splits into no more than two pieces, as one without any
    unescaped colon, gives a row of one column, the entry itself. *)
Theorem setup_cpe_table_any_entries (l1 l2 : list string) :
  setup_cpe_table (l1 ++ l2) = setup_cpe_table l1 ++ setup_cpe_table l2
  /\ length (setup_cpe_table l1) = length l1
  /\ (forall cpe, length (Str.re_split_colon cpe) <= 2 ->
                  setup_cpe_table [cpe] = [[cpe]])
  /\ (forall cpe, colons_escaped None cpe = true ->
                  setup_cpe_table [cpe] = [[cpe]]).
Proof.
  unfold setup_cpe_table. rewrite !cpe_loop_map. simpl.
  split; [apply map_app|]. split; [apply length_map|].
  assert (H : forall cpe, length (Str.re_split_colon cpe) <= 2 ->
                          cpe_loop [cpe] [] = [[cpe]]).
  { intros cpe Hlen. cbn [cpe_loop app]. unfold components.
    destruct (Str.re_split_colon cpe) as [|a [|b [|c l]]]; simpl in *;
      try reflexivity; lia. }
  split; [exact H|].
  intros cpe Hesc. apply H. unfold Str.re_split_colon.
  rewrite split_colon_single by assumption. simpl. lia.
Qed.

Lemma setup_cpe_table_any_entries_witness :
  setup_cpe_table ["official-cpe-dictionary"] = [["official-cpe-dictionary"]]
  /\ setup_cpe_table ["cpe:2.3"] = [["cpe:2.3"]].
Proof.
  destruct (setup_cpe_table_any_entries [] []) as (_ & _ & Hlen & Hesc).
  split; [apply Hesc; reflexivity|apply Hlen; simpl; lia].
Defined.

(** ** From the feed to the tables *)

Lemma spec_rows_identifiers (ids : list string) (id : string) :
  forallb is_identifier_token ids = true ->
  spec_rows id ids
  = map (fun cpe => id :: year_field id :: cpe :: unbinding (components cpe)) ids.
Proof.
  unfold is_identifier_token.
  induction ids as [|x ids IH]; intros H; simpl in *; [reflexivity|].
  apply andb_true_iff in H as [Hx Hids]. apply negb_true_iff in Hx.
  now rewrite Hx, IH.
Qed.

Lemma matched_channels_open (rt : runtime) (vs : list vulnerability) :
  Forall (fun v => Str.is_cve_id (vuln_id v) = true) vs ->
  opens_with_id (flat_map (spec_matched_channel rt) vs) = true.
Proof.
  induction 1 as [|v vs Hv _ IH]; [reflexivity|].
  cbn [flat_map]. unfold spec_matched_channel at 1.
  destruct (match_nodes v); [exact IH|exact Hv].
Qed.

Lemma matched_channels_rows (rt : runtime) (vs : list vulnerability) :
  Forall (fun v =>
            Str.is_cve_id (vuln_id v) = true
            /\ forallb is_identifier_token
                       (list_of_set rt (iterate_nodes (match_nodes v) [])) = true)
         vs ->
  forall current,
    spec_rows current (flat_map (spec_matched_channel rt) vs)
    = flat_map (fun v =>
                  map (fun cpe => vuln_id v :: year_field (vuln_id v) :: cpe
                                    :: unbinding (components cpe))
                      (tl (spec_matched_channel rt v)))
               vs.
Proof.
  induction 1 as [|v vs [Hid Hids] _ IH]; intros current; [reflexivity|].
  cbn [flat_map]. unfold spec_matched_channel at 1 3.
  destruct (match_nodes v) as [|n ns]; [apply IH|].
  cbn [app tl spec_rows]. rewrite Hid, spec_rows_app.
  rewrite (spec_rows_identifiers _ _ Hids), IH. reflexivity.
Qed.

Lemma summary_channels_rows (vs : list vulnerability) :
  Forall (fun v => Str.is_cve_id (vuln_id v) = true
                   /\ Str.is_cve_id (description v) = false) vs ->
  forall table,
    summary_loop (flat_map spec_summary_channel vs) [] table
    = Returned (table
                ++ flat_map (fun v =>
                               match spec_summary_channel v with
                               | [] => []
                               | _ :: _ =>
                                   [[vuln_id v; year_field (vuln_id v);
                                     description v]]
                               end)
                            vs).
Proof.
  induction 1 as [|v vs [Hid Hdesc] _ IH]; intros table.
  - simpl. now rewrite app_nil_r.
  - cbn [flat_map]. unfold spec_summary_channel at 1 3.
    destruct (match_nodes v) as [|n ns];
      [destruct (prefix reject_marker (description v))|];
      try (cbn [app]; apply IH).
    cbn [app summary_loop].
    rewrite Hid, (subscript_year _ Hid).
    cbn [bind Monad_outcome Monad_either Returned summary_loop app].
    rewrite Hdesc, IH. now rewrite <- app_assoc.
Qed.

(** X12: the two stages fit.  For a feed whose items can all be read,
    whose ids are id-shaped and whose descriptions and identifiers are
    not, [setup_cve_table] on the two lists [extract_cve] returns does not
    fail: the vulnerability table has, item by item, one row per
    deduplicated identifier under the id of that item, and the summary
    table one row for every item that went to the summaries. *)
Theorem feed_tables (rt : runtime) (file text : string)
        (vs : list vulnerability) :
  open_file rt file = Content text ->
  json_load rt text = Some (Feed (Some (map feed_item vs))) ->
  Forall (fun v =>
            Str.is_cve_id (vuln_id v) = true
            /\ Str.is_cve_id (description v) = false
            /\ forallb is_identifier_token
                       (list_of_set rt (iterate_nodes (match_nodes v) [])) = true)
         vs ->
  exists cve_list summary_list,
    extract_cve rt file = Returned (cve_list, summary_list)
    /\ setup_cve_table cve_list summary_list
       = Returned
           (flat_map (fun v =>
                        map (fun cpe => vuln_id v :: year_field (vuln_id v)
                                          :: cpe :: unbinding (components cpe))
                            (tl (spec_matched_channel rt v)))
                     vs,
            flat_map (fun v =>
                        match spec_summary_channel v with
                        | [] => []
                        | _ :: _ =>
                            [[vuln_id v; year_field (vuln_id v); description v]]
                        end)
                     vs).
Proof.
  intros Hopen Hload Hvs.
  exists (flat_map (spec_matched_channel rt) vs),
         (flat_map spec_summary_channel vs).
  split.
  - unfold extract_cve, extract_cve_body. rewrite Hopen, Hload.
    cbn [CVE_Items item bind ret Monad_outcome Monad_either].
    rewrite extract_items_channels. reflexivity.
  - assert (Hids : Forall (fun v => Str.is_cve_id (vuln_id v) = true) vs)
      by (eapply Forall_impl; [|exact Hvs]; cbv beta; intros ? (? & ? & ?); auto).
    destruct (setup_cve_table_opening _ (flat_map spec_summary_channel vs)
                (matched_channels_open rt vs Hids)) as (u & Hu & Hrun).
    rewrite Hrun. rewrite summary_channels_rows in Hu
      by (eapply Forall_impl; [|exact Hvs]; cbv beta; intros ? (? & ? & ?); auto).
    injection Hu as <-.
    rewrite matched_channels_rows
      by (eapply Forall_impl; [|exact Hvs]; cbv beta; intros ? (? & ? & ?); auto).
    reflexivity.
Qed.

Lemma feed_tables_witness :
  exists cve_list summary_list table,
    extract_cve TestData.RUNTIME "nvdcve-1.0-2012.json"
    = Returned (cve_list, summary_list)
    /\ setup_cve_table cve_list summary_list
       = Returned
           (table,
            [["CVE-2018-8825"; "2018";
              "Google TensorFlow 1.7 and below is affected by: Buffer Overflow."]])
    /\ length table = 4.
Proof.
  destruct (feed_tables TestData.RUNTIME "nvdcve-1.0-2012.json" "feed"
                        TestData.VULNERABILITIES eq_refl eq_refl)
    as (cve_list & summary_list & Hrun & Htables).
  - repeat constructor.
  - exists cve_list, summary_list. eexists.
    split; [exact Hrun|]. split; [exact Htables|]. reflexivity.
Defined.

(** ** Identifiers behind an id *)

(** X4: a well-formed platform identifier never matches the id pattern.
    So a run of well-formed identifiers behind an id token gives one row
    each, all under that id and its year, and a well-formed identifier at
    the head of the sequence ends the call in [IndexError]. *)
Theorem platform_identifier_is_no_id (id : string)
        (cpes summary_list : list string) :
  Str.is_cve_id id = true ->
  Forall platform_identifier cpes ->
  Forall (fun cpe => Str.is_cve_id cpe = false) cpes
  /\ (exists summary_table,
         setup_cve_table (id :: cpes) summary_list
         = Returned
             (map (fun cpe => id :: year_field id :: cpe
                                :: unbinding (components cpe)) cpes,
              summary_table))
  /\ (forall cpe rest,
         In cpe cpes ->
         setup_cve_table (cpe :: rest) summary_list = Raised IndexError).
Proof.
  intros Hid Hcpes.
  assert (Hno : Forall (fun cpe => Str.is_cve_id cpe = false) cpes).
  { eapply Forall_impl; [|exact Hcpes]. apply platform_identifier_not_id. }
  split; [exact Hno|]. split.
  - destruct (setup_cve_table_opening (id :: cpes) summary_list Hid)
      as (u & _ & Hrun).
    exists u. rewrite Hrun. cbn [spec_rows]. rewrite Hid.
    rewrite spec_rows_identifiers; [reflexivity|].
    apply forallb_forall. intros cpe Hin. rewrite Forall_forall in Hno.
    unfold is_identifier_token. now rewrite (Hno cpe Hin).
  - intros cpe rest Hin. rewrite Forall_forall in Hno.
    unfold setup_cve_table. cbn [cve_loop]. now rewrite (Hno cpe Hin).
Qed.

Lemma platform_identifier_is_no_id_witness :
  (exists summary_table,
      setup_cve_table
        ["CVE-2012-0001"; "cpe:2.3:a:1024cms:1024_cms:1.2.5:*:*:*:*:*:*:*";
         "cpe:2.3:a:ven\\:prod:1:*:*:*:*:*:*:*"] []
      = Returned
          ([["CVE-2012-0001"; "2012";
             "cpe:2.3:a:1024cms:1024_cms:1.2.5:*:*:*:*:*:*:*";
             "a"; "1024cms"; "1024_cms"; "1\.2\.5";
             "ANY"; "ANY"; "ANY"; "ANY"; "ANY"; "ANY"; "ANY"];
            ["CVE-2012-0001"; "2012"; "cpe:2.3:a:ven\\:prod:1:*:*:*:*:*:*:*";
             "a"; "ven\\:prod"; "1";
             "ANY"; "ANY"; "ANY"; "ANY"; "ANY"; "ANY"; "ANY"]],
           summary_table))
  /\ setup_cve_table
       ["cpe:2.3:a:1024cms:1024_cms:1.2.5:*:*:*:*:*:*:*"; "CVE-2012-0001"] []
     = Raised IndexError.
Proof.
  assert (H : Forall platform_identifier
                ["cpe:2.3:a:1024cms:1024_cms:1.2.5:*:*:*:*:*:*:*";
                 "cpe:2.3:a:ven\\:prod:1:*:*:*:*:*:*:*"]).
  { constructor; [|constructor; [|constructor]].
    - exists ["a"; "1024cms"; "1024_cms"; "1.2.5";
              "*"; "*"; "*"; "*"; "*"; "*"; "*"].
      repeat split; reflexivity.
    - exists ["a"; "ven\\"; "prod"; "1"; "*"; "*"; "*"; "*"; "*"; "*"; "*"].
      repeat split; reflexivity. }
  destruct (platform_identifier_is_no_id "CVE-2012-0001" _ [] eq_refl H)
    as (_ & Hrows & Hhead).
  split; [exact Hrows|].
  apply Hhead. now left.
Defined.

(** ** Downloading *)

Section DownloadFacts.

Import Download.

Context {Disk : Type} (sv : services Disk).

Lemma range_length (lo hi : Z) : length (range lo hi) = Z.to_nat (hi - lo).
Proof. unfold range. now rewrite length_map, length_seq. Qed.

Lemma range_In (lo hi y : Z) : In y (range lo hi) <-> (lo <= y < hi)%Z.
Proof.
  unfold range. rewrite in_map_iff. split.
  - intros (i & <- & Hi). apply in_seq in Hi. lia.
  - intros H. exists (Z.to_nat (y - lo)). split; [lia|].
    apply in_seq. lia.
Qed.

Lemma links_loop_map (url : string) (years : list Z) :
  forall cve_urls,
    links_loop sv url years cve_urls
    = cve_urls ++ map (format_int sv url) years.
Proof.
  induction years as [|y ys IH]; intros cve_urls; simpl.
  - now rewrite app_nil_r.
  - now rewrite IH, <- app_assoc.
Qed.

(** X13: [get_cve_links] gives one link per year from 2002 through the
    current year, in ascending order of the years, and no link at all when
    the clock is set before 2002. *)
Theorem get_cve_links_years (url : string) :
  get_cve_links sv url
  = map (format_int sv url) (range 2002 (today_year sv + 1))
  /\ length (get_cve_links sv url) = Z.to_nat (today_year sv - 2001)
  /\ (forall year, (2002 <= year <= today_year sv)%Z ->
                   In (format_int sv url year) (get_cve_links sv url))
  /\ ((today_year sv < 2002)%Z -> get_cve_links sv url = []).
Proof.
  assert (H : get_cve_links sv url
              = map (format_int sv url) (range 2002 (today_year sv + 1))).
  { unfold get_cve_links. now rewrite links_loop_map. }
  split; [exact H|]. rewrite H. split; [|split].
  - rewrite length_map, range_length. f_equal. lia.
  - intros year Hy. apply in_map, range_In. lia.
  - intros Hearly. unfold range.
    replace (Z.to_nat (today_year sv + 1 - 2002)) with 0 by lia.
    reflexivity.
Qed.

Lemma years_loop_cell (candidate : string) (years : list Z) (dl_urls : ref) :
  forall h r,
    years_loop candidate years h dl_urls r
    = if Nat.eqb r dl_urls
      then h dl_urls ++ selected [candidate] years
      else h r.
Proof.
  unfold selected. cbn [flat_map]. 
  induction years as [|y ys IH]; intros h r; cbn [years_loop flat_map].
  - rewrite !app_nil_r.
    destruct (Nat.eqb_spec r dl_urls) as [->|]; reflexivity.
  - rewrite IH. rewrite !app_nil_r in *.
    destruct (Str.contains (str y) candidate);
      unfold list_append, set_list;
      destruct (Nat.eqb_spec r dl_urls) as [->|]; try reflexivity.
    rewrite Nat.eqb_refl. now rewrite <- app_assoc.
Qed.

Lemma candidates_loop_cell (cve_candidates : list string) (years : list Z)
      (dl_urls : ref) :
  forall h r,
    candidates_loop cve_candidates years h dl_urls r
    = if Nat.eqb r dl_urls
      then h dl_urls ++ selected cve_candidates years
      else h r.
Proof.
  induction cve_candidates as [|c cs IH]; intros h r; cbn [candidates_loop].
  - unfold selected. simpl. rewrite app_nil_r.
    destruct (Nat.eqb_spec r dl_urls) as [->|]; reflexivity.
  - rewrite IH, !years_loop_cell, Nat.eqb_refl.
    destruct (Nat.eqb_spec r dl_urls) as [->|]; [|reflexivity].
    unfold selected. cbn [flat_map]. now rewrite app_nil_r, <- app_assoc.
Qed.

Lemma selected_In (cve_candidates : list string) (years : list Z) (x : string) :
  In x (selected cve_candidates years)
  <-> In x cve_candidates
      /\ exists year, In year years /\ Str.contains (str year) x = true.
Proof.
  unfold selected. rewrite in_flat_map. split.
  - intros (c & Hc & Hx). apply in_flat_map in Hx as (y & Hy & Hx).
    destruct (Str.contains (str y) c) eqn:E; [|destruct Hx].
    destruct Hx as [<-|[]]. split; [assumption|]. now exists y.
  - intros (Hx & y & Hy & E). exists x. split; [assumption|].
    apply in_flat_map. exists y. split; [assumption|].
    rewrite E. now left.
Qed.

Lemma selected_no_years (cve_candidates : list string) :
  selected cve_candidates [] = [].
Proof. induction cve_candidates; simpl; auto. Qed.

(** X14: [download_cve] returns the very list it was given, with the
    selected candidates appended behind what the list held and every other
    list untouched.  A candidate is selected when the decimal text of one of
    the years occurs anywhere in it; with no year given explicitly, nothing
    is appended. *)
Theorem download_cve_appends (h : heap) (dl_urls : ref) (years : list Z)
        (m : meta) (us : source_urls) (url : string) :
  urls m = Some us ->
  cve_source us = Some url ->
  exists h',
    download_cve sv h dl_urls (Some years) m = inr (h', dl_urls)
    /\ h' dl_urls = h dl_urls ++ selected (get_cve_links sv url) years
    /\ (forall r, r <> dl_urls -> h' r = h r)
    /\ (forall x, In x (selected (get_cve_links sv url) years)
                  <-> In x (get_cve_links sv url)
                      /\ exists year, In year years
                                      /\ Str.contains (str year) x = true)
    /\ (years = [] -> h' dl_urls = h dl_urls).
Proof.
  intros Hus Hurl.
  exists (candidates_loop (get_cve_links sv url) years h dl_urls).
  split; [|split; [|split; [|split]]].
  - unfold download_cve. rewrite Hus. cbn. rewrite Hurl. reflexivity.
  - now rewrite candidates_loop_cell, Nat.eqb_refl.
  - intros r Hr. rewrite candidates_loop_cell.
    now destruct (Nat.eqb_spec r dl_urls).
  - intros x. apply selected_In.
  - intros ->. rewrite candidates_loop_cell, Nat.eqb_refl.
    rewrite selected_no_years. apply app_nil_r.
Qed.

Lemma iterate_urls_app (l1 l2 : list string) (path : string) :
  forall disk,
    iterate_urls sv (l1 ++ l2) path disk
    = match iterate_urls sv l1 path disk with
      | (disk', inr _) => iterate_urls sv l2 path disk'
      | (disk', inl e) => (disk', inl e)
      end.
Proof.
  induction l1 as [|u l1 IH]; intros disk; [reflexivity|].
  cbn [app iterate_urls].
  destruct (requests_get sv u disk) as [disk1 [err|content]]; [reflexivity|].
  destruct (extractall sv content path disk1) as [disk' [|]];
    [apply IH|reflexivity].
Qed.

(** X15: [iterate_urls] works through the list in order and stops at the
    first URL whose request raises.  The state outside is then the one the
    URLs before it and the failing request left, whatever URLs follow: the
    archives before it stay unpacked, and for the URLs behind it nothing is
    requested and nothing unpacked. *)
Theorem iterate_urls_stops_at_failure (before after : list string)
        (bad err path : string) (disk disk' disk'' : Disk) :
  iterate_urls sv before path disk = (disk', inr tt) ->
  requests_get sv bad disk' = (disk'', inl err) ->
  iterate_urls sv (before ++ bad :: after) path disk
  = (disk'',
     inl (Exit ("Error: URLs are invalid. URL format might have been changed or website might have moved. " ++ err))).
Proof.
  intros Hbefore Hbad.
  rewrite iterate_urls_app, Hbefore. cbn [iterate_urls]. now rewrite Hbad.
Qed.

Lemma download_list_lists (cpe cve update : bool) (years : list Z) (m : meta)
      (us : source_urls) (cpe_url cve_url : string) :
  urls m = Some us ->
  cpe_source us = Some cpe_url ->
  cve_source us = Some cve_url ->
  let chosen :=
    (if cpe then [cpe_url] else [])
    ++ (if update then [format_str sv cve_url "modified"] else []) in
  download_list sv cpe cve update (Some years) m
  = inr (if cve
         then (chosen ++ selected (get_cve_links sv cve_url) years)
              ++ (chosen ++ selected (get_cve_links sv cve_url) years)
         else chosen).
Proof.
  intros Hus Hcpe Hcve chosen. subst chosen.
  unfold download_list, download_cve. rewrite Hus.
  destruct cpe, update, cve;
    cbn -[selected get_cve_links candidates_loop];
    rewrite ?Hcpe, ?Hcve;
    cbn -[selected get_cve_links candidates_loop];
    rewrite ?Hcve;
    cbn -[selected get_cve_links candidates_loop];
    rewrite ?candidates_loop_cell;
    cbn -[selected get_cve_links candidates_loop];
    reflexivity.
Qed.

(** X16: with the option for the yearly feeds set, [download_data] hands
    the whole list of URLs to [iterate_urls] twice over: [download_cve]
    returns the list it appended to, and the caller extends that list by
    it.  Without the option each chosen URL is there once. *)
Theorem download_data_lists_twice (cpe update : bool) (years : list Z)
        (path : string) (disk : Disk) (m : meta) (us : source_urls)
        (cpe_url cve_url : string) :
  get_meta sv = Some m ->
  urls m = Some us ->
  cpe_source us = Some cpe_url ->
  cve_source us = Some cve_url ->
  let chosen :=
    (if cpe then [cpe_url] else [])
    ++ (if update then [format_str sv cve_url "modified"] else []) in
  let once := chosen ++ selected (get_cve_links sv cve_url) years in
  download_data sv cpe true update path (Some years) disk
  = iterate_urls sv (once ++ once) path disk
  /\ (cpe || update = true ->
      download_data sv cpe false update path (Some years) disk
      = iterate_urls sv chosen path disk).
Proof.
  intros Hmeta Hus Hcpe Hcve chosen once. subst once chosen.
  unfold download_data. rewrite Hmeta.
  rewrite !(download_list_lists _ _ _ years m us cpe_url cve_url Hus Hcpe Hcve).
  split.
  - now rewrite andb_false_r.
  - intros Hany. destruct cpe, update; try discriminate; reflexivity.
Qed.

(** X17: [download_data] ends in [exit] and leaves the state outside as
    it found it, so that no request was made and nothing unpacked, when
    there is no metadata, when no option is set, and when the yearly feeds
    are asked for with no years given, also if the dictionary was asked for
    with them. *)
Theorem download_data_refuses (cpe cve update : bool) (path : string)
        (years : option (list Z)) (disk : Disk) :
  (get_meta sv = None ->
   download_data sv cpe cve update path years disk
   = (disk, inl (Exit "Error: No source URLs provided. Check metadata.json if required URL is set.")))
  /\ (forall m,
         get_meta sv = Some m ->
         download_data sv false false false path years disk
         = (disk, inl (Exit "Error: No file specified for download.")))
  /\ (forall m us cpe_url cve_url,
         get_meta sv = Some m ->
         urls m = Some us ->
         cpe_source us = Some cpe_url ->
         cve_source us = Some cve_url ->
         download_data sv cpe true update path None disk
         = (disk, inl (Exit "Error: The required years of CVE feeds are not specified"))).
Proof.
  unfold download_data. split; [|split].
  - intros ->. reflexivity.
  - intros m ->. reflexivity.
  - intros m us cpe_url cve_url -> Hus Hcpe Hcve.
    rewrite andb_false_r. cbn [andb].
    unfold download_list, download_cve. rewrite Hus.
    cbn [key bind ret Monad_result Monad_either]. rewrite Hcpe, Hcve.
    destruct cpe, update; reflexivity.
Qed.

End DownloadFacts.

Lemma get_cve_links_years_witness :
  In "https://nvd.nist.gov/feeds/json/cve/1.0/nvdcve-1.0-2018.json.zip"
     (Download.get_cve_links TestData.SERVICES
        "https://nvd.nist.gov/feeds/json/cve/1.0/nvdcve-1.0-{}.json.zip")
  /\ length (Download.get_cve_links TestData.SERVICES
               "https://nvd.nist.gov/feeds/json/cve/1.0/nvdcve-1.0-{}.json.zip")
     = 18.
Proof.
  destruct (get_cve_links_years TestData.SERVICES
              "https://nvd.nist.gov/feeds/json/cve/1.0/nvdcve-1.0-{}.json.zip")
    as (_ & Hlen & Hin & _).
  split; [|exact Hlen].
  apply (Hin 2018%Z). cbn. lia.
Defined.

Lemma download_cve_appends_witness :
  exists h',
    Download.download_cve TestData.SERVICES
      (fun _ => ["https://nvd.nist.gov/feeds/json/cve/1.0/nvdcve-1.0-modified.json.zip"])
      0 (Some [2019; 2018]%Z)
      (Download.Meta (Some (Download.SourceUrls None
         (Some "https://nvd.nist.gov/feeds/json/cve/1.0/nvdcve-1.0-{}.json.zip"))))
    = inr (h', 0)
    /\ h' 0
       = ["https://nvd.nist.gov/feeds/json/cve/1.0/nvdcve-1.0-modified.json.zip";
          "https://nvd.nist.gov/feeds/json/cve/1.0/nvdcve-1.0-2018.json.zip";
          "https://nvd.nist.gov/feeds/json/cve/1.0/nvdcve-1.0-2019.json.zip"].
Proof.
  destruct (download_cve_appends TestData.SERVICES
              (fun _ => ["https://nvd.nist.gov/feeds/json/cve/1.0/nvdcve-1.0-modified.json.zip"])
              0 [2019; 2018]%Z
              (Download.Meta (Some (Download.SourceUrls None
                 (Some "https://nvd.nist.gov/feeds/json/cve/1.0/nvdcve-1.0-{}.json.zip"))))
              _ _ eq_refl eq_refl)
    as (h' & Hrun & Hcell & _).
  exists h'. split; [exact Hrun|]. rewrite Hcell. vm_compute. reflexivity.
Defined.

Lemma iterate_urls_stops_at_failure_witness :
  Download.iterate_urls TestData.RECORDED
    ["nvdcve-1.0-2002.json.zip"; "nvdcve-1.0-2003.json.zip";
     "nvdcve-1.0-2004.json.zip"] "feeds" []
  = ([TestData.Requested "nvdcve-1.0-2002.json.zip";
      TestData.Unpacked "feeds" "nvdcve-1.0-2002.json.zip";
      TestData.Requested "nvdcve-1.0-2003.json.zip"],
     inl (Download.Exit "Error: URLs are invalid. URL format might have been changed or website might have moved. 404")).
Proof.
  exact (iterate_urls_stops_at_failure TestData.RECORDED
           ["nvdcve-1.0-2002.json.zip"] ["nvdcve-1.0-2004.json.zip"]
           "nvdcve-1.0-2003.json.zip" "404" "feeds" [] _ _ eq_refl eq_refl).
Defined.

Lemma download_data_lists_twice_witness :
  Download.download_data TestData.SERVICES true true false "." (Some [2018]%Z) []
  = ([(".", "https://nvd.nist.gov/feeds/xml/cpe/dictionary/official-cpe-dictionary_v2.3.xml.zip");
      (".", "https://nvd.nist.gov/feeds/json/cve/1.0/nvdcve-1.0-2018.json.zip");
      (".", "https://nvd.nist.gov/feeds/xml/cpe/dictionary/official-cpe-dictionary_v2.3.xml.zip");
      (".", "https://nvd.nist.gov/feeds/json/cve/1.0/nvdcve-1.0-2018.json.zip")],
     inr tt).
Proof.
  rewrite (proj1 (download_data_lists_twice TestData.SERVICES true false
                    [2018]%Z "." [] _ _ _ _ eq_refl eq_refl eq_refl eq_refl)).
  vm_compute. reflexivity.
Defined.

Lemma download_data_refuses_witness :
  Download.download_data TestData.RECORDED true true false "." None []
  = ([], inl (Download.Exit "Error: The required years of CVE feeds are not specified")).
Proof.
  exact (proj2 (proj2 (download_data_refuses TestData.RECORDED true true false
                         "." None []))
           _ _ _ _ eq_refl eq_refl eq_refl eq_refl).
Defined.
